(** * INA226 continuous monitor (arduino/monitoramento.ino)

    A shallow embedding of the sketch: the 32-bit [unsigned long]
    millisecond counter with its wrap-around, IEEE-754 binary32 [float]
    and binary64 [double] arithmetic through the Standard Library's
    executable specification [SpecFloat], the sensor and the clock as
    explicit inputs, and the serial port as a list of output events. *)

From Stdlib Require Import ZArith List Bool Lia String Sorted.
From Stdlib Require Import SpecFloat.
Import ListNotations.
Open Scope Z_scope.

(** ** Machine integers *)

(** [unsigned long] on the ESP32-C6 (32 bits, arithmetic modulo 2^32). *)
Module ULong.
Definition modulus : Z := 2 ^ 32.
Definition wrap (z : Z) : Z := z mod modulus.
Definition sub (a b : Z) : Z := wrap (a - b).
Definition incr (a : Z) : Z := wrap (a + 1).
End ULong.

(** [int] (32 bits, two's complement).  Overflow of a signed [int] is
    undefined in C++; [incr] wraps as the hardware does, and every
    statement about an [int] counter is made for counts up to [max],
    where no overflow takes place. *)
Module Int.
Definition max : Z := 2 ^ 31 - 1.
Definition wrap (z : Z) : Z := (z + 2 ^ 31) mod 2 ^ 32 - 2 ^ 31.
Definition incr (a : Z) : Z := wrap (a + 1).
End Int.

(** ** Floating point *)

(** [float]: IEEE-754 binary32, round to nearest even. *)
Module F32.
Definition prec : Z := 24.
Definition emax : Z := 128.
Definition valid (x : spec_float) : bool := valid_binary prec emax x.
Definition zero : spec_float := S754_zero false.
Definition add : spec_float -> spec_float -> spec_float := SFadd prec emax.
Definition sub : spec_float -> spec_float -> spec_float := SFsub prec emax.
Definition mul : spec_float -> spec_float -> spec_float := SFmul prec emax.
Definition div : spec_float -> spec_float -> spec_float := SFdiv prec emax.
(** [abs] on a [float] is [std::abs(float)] in the Arduino core of the
    ESP32-C6: it clears the sign. *)
Definition abs : spec_float -> spec_float := SFabs.
Definition leb : spec_float -> spec_float -> bool := SFleb.
Definition ltb : spec_float -> spec_float -> bool := SFltb.
(** Conversion of an integer operand to [float]. *)
Definition of_int (z : Z) : spec_float := binary_normalize prec emax z 0 false.
End F32.

(** [double]: IEEE-754 binary64, round to nearest even. *)
Module F64.
Definition prec : Z := 53.
Definition emax : Z := 1024.
Definition div : spec_float -> spec_float -> spec_float := SFdiv prec emax.
(** Conversion of an [unsigned long] operand to [double] (always exact). *)
Definition of_ulong (z : Z) : spec_float := binary_normalize prec emax z 0 false.
(** An integral literal such as [1000.0]. *)
Definition const (n : Z) : spec_float := binary_normalize prec emax n 0 false.
(** A decimal literal [n / 10^k] with [n] and [10^k] below 2^53: the
    correctly rounded quotient. *)
Definition literal (n pow10 : Z) : spec_float := div (const n) (const pow10).
(** Narrowing of a [double] to [float] on assignment. *)
Definition to_float (x : spec_float) : spec_float :=
  match x with
  | S754_finite s m e => binary_round F32.prec F32.emax s m e
  | _ => x
  end.
End F64.

(** ** Constants of the sketch *)

Definition SHUNT_RESISTANCE : spec_float := F64.to_float (F64.literal 1 10).
Definition MAX_CURRENT : spec_float := F64.to_float (F64.literal 5 10).
Definition CORRECTION_FACTOR : spec_float := F64.to_float (F64.literal 968 1000).
Definition TRANSMISSION_INTERVAL : Z := 50.

(** ** State, inputs and outputs *)

(** The global variables. *)
Record SessionState := mkState {
  sessionStartTime : Z;
  sampleCount : Z;
  baselineCurrent : spec_float;
  totalEnergy : spec_float;
  lastTransmission : Z
}.

(** Their values when [setup] starts. *)
Definition globals0 : SessionState :=
  {| sessionStartTime := 0; sampleCount := 0; baselineCurrent := F32.zero;
     totalEnergy := F32.zero; lastTransmission := 0 |}.

(** [millis()]: milliseconds since boot, truncated to [unsigned long].
    The argument is the true elapsed time. *)
Definition millis (clock : Z) : Z := ULong.wrap clock.

(** What one call of [loop] observes: the clock at its [millis()] call,
    and the answers of the INA226 driver should it be asked. *)
Record TickInput := mkTick {
  clock : Z;
  isConversionReady : bool;
  getBusVoltage : spec_float;
  getCurrent_mA : spec_float
}.

(** The six values of one data line. *)
Record SampleRecord := mkRecord {
  timestamp : Z;
  voltage : spec_float;
  current : spec_float;
  netCurrent : spec_float;
  power : spec_float;
  cumulativeEnergy : spec_float
}.

Inductive Arg :=
| ArgInt (z : Z)
| ArgFloat (x : spec_float).

(** Events on the serial port, and the pauses between them. *)
Inductive Output :=
| Println (line : string)
| Printf (format : string) (args : list Arg)
| Delay (ms : Z).

Definition data_format : string := "%lu,%.6f,%.4f,%.4f,%.4f,%.6f\n".

Definition emit (r : SampleRecord) : Output :=
  Printf data_format
    [ArgInt (timestamp r); ArgFloat (voltage r); ArgFloat (current r);
     ArgFloat (netCurrent r); ArgFloat (power r); ArgFloat (cumulativeEnergy r)].

(** ** [loop] *)

(** [abs(INA.getCurrent_mA()) * CORRECTION_FACTOR] *)
Definition corrected (raw : spec_float) : spec_float :=
  F32.mul (F32.abs raw) CORRECTION_FACTOR.

(** [(currentMillis - lastTransmission) / 1000.0 / 3600.0], computed in
    [double] and stored in a [float]; the argument is the [unsigned long]
    difference. *)
Definition deltaTime (elapsed : Z) : spec_float :=
  F64.to_float
    (F64.div (F64.div (F64.of_ulong elapsed) (F64.const 1000))
             (F64.const 3600)).

Definition loop (env : TickInput) (st : SessionState)
  : SessionState * option SampleRecord :=
  let currentMillis := millis (clock env) in
  if TRANSMISSION_INTERVAL <=? ULong.sub currentMillis (lastTransmission st) then
    if isConversionReady env then
      let voltage := getBusVoltage env in
      let current := corrected (getCurrent_mA env) in
      let power := F32.mul voltage current in
      let netCurrent := F32.sub current (baselineCurrent st) in
      let timestamp := ULong.sub currentMillis (sessionStartTime st) in
      let sampleCount' := ULong.incr (sampleCount st) in
      let deltaTime := deltaTime (ULong.sub currentMillis (lastTransmission st)) in
      let totalEnergy' := F32.add (totalEnergy st) (F32.mul power deltaTime) in
      ({| sessionStartTime := sessionStartTime st;
          sampleCount := sampleCount';
          baselineCurrent := baselineCurrent st;
          totalEnergy := totalEnergy';
          lastTransmission := currentMillis |},
       Some (mkRecord timestamp voltage current netCurrent power totalEnergy'))
    else (st, None)
  else (st, None).

(** Successive calls of [loop]: the final state and, for every call that
    printed a data line, the input of that call, the record printed and
    the state it left. *)
Record Emission := mkEmission {
  em_input : TickInput;
  em_before : SessionState;
  em_record : SampleRecord;
  em_after : SessionState
}.

Fixpoint run (envs : list TickInput) (st : SessionState)
  : SessionState * list Emission :=
  match envs with
  | [] => (st, [])
  | env :: rest =>
      let (st', out) := loop env st in
      let (st'', ems) := run rest st' in
      (st'', match out with
             | Some r => mkEmission env st r st' :: ems
             | None => ems
             end)
  end.

Definition records (envs : list TickInput) (st : SessionState) : list SampleRecord :=
  map em_record (snd (run envs st)).

(** ** [measureBaseline] *)

(** One evaluation of the [while] condition and, inside the window, of
    the body: the clock at [millis()] and the driver's answers. *)
Record Poll := mkPoll {
  poll_clock : Z;
  poll_ready : bool;
  poll_current : spec_float
}.

(** The [while] loop over the polls the environment provides; [None]
    when they run out with the window still open.  [delay(10)] only lets
    the clock advance, which the next poll's [poll_clock] shows. *)
Fixpoint measureBaseline_loop (startTime : Z) (polls : list Poll)
    (sum : spec_float) (samples : Z) : option (spec_float * Z) :=
  match polls with
  | [] => None
  | p :: rest =>
      if ULong.sub (millis (poll_clock p)) startTime <? 2000 then
        if poll_ready p then
          let current := corrected (poll_current p) in
          measureBaseline_loop startTime rest (F32.add sum current) (Int.incr samples)
        else measureBaseline_loop startTime rest sum samples
      else Some (sum, samples)
  end.

(** The value stored in [baselineCurrent]. *)
Definition measureBaseline (start_clock : Z) (polls : list Poll) : option spec_float :=
  match measureBaseline_loop (millis start_clock) polls F32.zero 0 with
  | None => None
  | Some (sum, samples) =>
      Some (if 0 <? samples then F32.div sum (F32.of_int samples) else F32.zero)
  end.

(** ** [setup] *)

Record SetupInput := mkSetup {
  ina_begin : bool;
  setMaxCurrentShunt : Z;
  getCurrentLSB_mA : spec_float;
  baseline_clock : Z;
  baseline_polls : list Poll;
  getManufacturerID : Z;
  getDieID : Z;
  getFreeHeap : Z;
  session_clock : Z
}.

(** [Returned]: [setup] came back with these globals.  [Halted]: still
    inside [while(1)] after the iterations granted.  [Calibrating]: still
    inside [measureBaseline] when the polls ran out. *)
Inductive SetupResult :=
| Returned (st : SessionState)
| Halted
| Calibrating.

Definition check_connections : string :=
  "# ERROR: Check connections SDA=GPIO21 SCL=GPIO22".
Definition data_start : string := "# DATA_START".

(** [n] iterations of [while(1) { println; delay(5000); }]. *)
Fixpoint halt_loop (n : nat) : list Output :=
  match n with
  | O => []
  | S n' => Println check_connections :: Delay 5000 :: halt_loop n'
  end.

Definition banner : list Output :=
  [Delay 2000;
   Println "# INA226 ESP32C6 Monitor - Continuous Mode";
   Println "# Version: 1.0";
   Println "# Shunt: 100mOhm (R100)";
   Println "# Correction Factor: 0.968"].

Definition setup (fuel : nat) (env : SetupInput) : list Output * SetupResult :=
  if negb (ina_begin env) then
    (banner ++ Println "# ERROR: INA226 not detected!" :: halt_loop fuel, Halted)
  else
    let result := setMaxCurrentShunt env in
    let config :=
      (if negb (result =? 0)
       then [Printf "# Warning: Config result 0x%04X\n" [ArgInt result]]
       else []) ++
      [Printf "# Current LSB: %.6f mA\n" [ArgFloat (getCurrentLSB_mA env)];
       Printf "# Power LSB: %.6f mW\n"
         [ArgFloat (F32.mul (getCurrentLSB_mA env) (F32.of_int 25))];
       Println "# Measuring baseline..."] in
    match measureBaseline (baseline_clock env) (baseline_polls env) with
    | None => (banner ++ config, Calibrating)
    | Some baseline =>
        (banner ++ config ++
         [Printf "# Baseline current: %.2f mA\n" [ArgFloat baseline];
          Printf "# Manufacturer ID: 0x%04X\n" [ArgInt (getManufacturerID env)];
          Printf "# Die ID: 0x%04X\n" [ArgInt (getDieID env)];
          Printf "# Free RAM: %d bytes\n" [ArgInt (getFreeHeap env)];
          Println "# Starting continuous monitoring...";
          Println "# Format: Timestamp(ms),Voltage(V),Current(mA),CurrentNet(mA),Power(mW),Energy(mWh)";
          Println data_start],
         Returned {| sessionStartTime := millis (session_clock env);
                     sampleCount := 0;
                     baselineCurrent := baseline;
                     totalEnergy := totalEnergy globals0;
                     lastTransmission := lastTransmission globals0 |})
    end.

(** The whole sketch: [setup], then [loop] once per tick if [setup]
    returned. *)
Definition firmware (fuel : nat) (env : SetupInput) (ticks : list TickInput)
  : list Output :=
  match setup fuel env with
  | (out, Returned st) => out ++ map emit (records ticks st)
  | (out, _) => out
  end.

(** ** Vocabulary of the statements *)

(** [0 <= x] and [x < 0] as the comparisons of the sketch's [float]s. *)
Definition nonneg (x : spec_float) : bool := SFleb (S754_zero false) x.
Definition negative (x : spec_float) : bool := SFltb x (S754_zero false).

(** The magnitude of a finite number: position of its leading bit. *)
Definition mag (m : positive) (e : Z) : Z := Zdigits2 (Zpos m) + e.

(** The outcomes of [binary_round_aux] for sign [s], when the mantissa
    cut at exponent [e1] is [m1]. *)
Inductive rounded (prec emax : Z) (s : bool) (m1 e1 : Z) : spec_float -> Prop :=
| rounded_zero : m1 = 0 -> rounded prec emax s m1 e1 (S754_zero s)
| rounded_inf : emax - prec <= e1 -> rounded prec emax s m1 e1 (S754_infinity s)
| rounded_fin m e :
    bounded prec emax m e = true ->
    (e = e1 /\ m1 <= Zpos m <= m1 + 1) \/ (e = e1 + 1 /\ 0 < m1) ->
    rounded prec emax s m1 e1 (S754_finite s m e).

(** The clock of the latest call of [loop] that printed a data line, as
    [millis()] showed it; the initial [lastTransmission] when there was
    none. *)
Definition previous_transmission (st0 : SessionState) (ems : list Emission) : Z :=
  fold_left (fun _ e => millis (clock (em_input e))) ems (lastTransmission st0).

(** [millis() - lastTransmission] as [loop] computes it. *)
Definition elapsed (env : TickInput) (st : SessionState) : Z :=
  ULong.sub (millis (clock env)) (lastTransmission st).

(** The sensor returned proper [float]s. *)
Definition tick_wf (env : TickInput) : bool :=
  F32.valid (getBusVoltage env) && F32.valid (getCurrent_mA env).

(** The power [loop] computes from this input is not negative. *)
Definition nonneg_power (env : TickInput) : bool :=
  nonneg (F32.mul (getBusVoltage env) (corrected (getCurrent_mA env))).

(** The clocks of successive calls never go back from [prev]. *)
Fixpoint clocks_monotone (prev : Z) (envs : list TickInput) : bool :=
  match envs with
  | [] => true
  | env :: rest => (prev <=? clock env) && clocks_monotone (clock env) rest
  end.

(** All calls are made before [limit]. *)
Definition clocks_before (limit : Z) (envs : list TickInput) : bool :=
  forallb (fun env => clock env <? limit) envs.

(** What the ordering guarantee says of a data line and the next one:
    about time stamps and sample counts, and about energy. *)
Definition follows (e1 e2 : Emission) : Prop :=
  timestamp (em_record e1) + TRANSMISSION_INTERVAL <= timestamp (em_record e2) /\
  timestamp (em_record e1) < timestamp (em_record e2) /\
  sampleCount (em_after e1) <= sampleCount (em_after e2).

Definition energy_follows (e1 e2 : Emission) : Prop :=
  F32.leb (cumulativeEnergy (em_record e1)) (cumulativeEnergy (em_record e2)) = true.

(** What holds of the globals between two calls of a session started at
    clock [c0], the latest call having been made at clock [prev]. *)
Record session_inv (c0 prev : Z) (st : SessionState) : Prop := {
  inv_start : sessionStartTime st = millis c0;
  inv_prev : c0 <= prev < c0 + ULong.modulus;
  inv_count : 0 <= sampleCount st;
  inv_last :
    0 < sampleCount st ->
    exists cl, lastTransmission st = millis cl /\ c0 <= cl <= prev /\
               TRANSMISSION_INTERVAL * (sampleCount st - 1) <= cl - c0
}.

(** [e] is the latest data line printed before the globals [st]. *)
Definition latest (c0 prev : Z) (st : SessionState) (e : Emission) : Prop :=
  exists cl, timestamp (em_record e) = cl - c0 /\
             lastTransmission st = millis cl /\ c0 <= cl <= prev /\
             0 < sampleCount st /\ sampleCount (em_after e) = sampleCount st.

(** The [while] condition of [measureBaseline] for a poll. *)
Definition in_window (start_clock : Z) (p : Poll) : bool :=
  ULong.sub (millis (poll_clock p)) (millis start_clock) <? 2000.

(** The running sum and count over the polls that found a sample ready. *)
Definition ready_polls (polls : list Poll) : list Poll := filter poll_ready polls.
Definition baseline_sum (polls : list Poll) : spec_float :=
  fold_left (fun sum p => F32.add sum (corrected (poll_current p)))
            (ready_polls polls) F32.zero.
Definition baseline_count (polls : list Poll) : Z :=
  Z.of_nat (List.length (ready_polls polls)).

(** ** Vocabulary of the further properties *)

(** A data line and the next one are printed at least one interval
    apart: as the 32-bit counter shows it, and in true time whenever less
    than one turn of the counter lies between them. *)
Definition spaced (e1 e2 : Emission) : Prop :=
  TRANSMISSION_INTERVAL
    <= ULong.sub (millis (clock (em_input e2))) (millis (clock (em_input e1))) /\
  (0 <= clock (em_input e2) - clock (em_input e1) < ULong.modulus ->
   TRANSMISSION_INTERVAL <= clock (em_input e2) - clock (em_input e1)).

(** A call that [loop] lets pass: too early, or the sensor not ready. *)
Definition skips (st : SessionState) (env : TickInput) : bool :=
  (elapsed env st <? TRANSMISSION_INTERVAL) || negb (isConversionReady env).

(** A proper [float] that is not a NaN. *)
Definition is_number (x : spec_float) : bool :=
  match x with
  | S754_nan => false
  | _ => valid_binary F32.prec F32.emax x
  end.

(** The first line of the configuration part of the preamble, printed
    when [setMaxCurrentShunt] does not return 0. *)
Definition config_warning (result : Z) : Output :=
  Printf "# Warning: Config result 0x%04X\n" [ArgInt result].

(** The same start with another answer of [setMaxCurrentShunt]. *)
Definition with_config (result : Z) (env : SetupInput) : SetupInput :=
  {| ina_begin := ina_begin env;
     setMaxCurrentShunt := result;
     getCurrentLSB_mA := getCurrentLSB_mA env;
     baseline_clock := baseline_clock env;
     baseline_polls := baseline_polls env;
     getManufacturerID := getManufacturerID env;
     getDieID := getDieID env;
     getFreeHeap := getFreeHeap env;
     session_clock := session_clock env |}.

(** The same call with the current flowing the other way. *)
Definition reversed (env : TickInput) : TickInput :=
  {| clock := clock env;
     isConversionReady := isConversionReady env;
     getBusVoltage := getBusVoltage env;
     getCurrent_mA := SFopp (getCurrent_mA env) |}.

(** What a data line adds to the energy total, and the total after
    some lines. *)
Definition energy_step (e : Emission) : spec_float :=
  F32.mul (power (em_record e)) (deltaTime (elapsed (em_input e) (em_before e))).
Definition energy_sum (start : spec_float) (ems : list Emission) : spec_float :=
  fold_left (fun total e => F32.add total (energy_step e)) ems start.

(** The clock of the latest of some calls, [prev] when there is none. *)
Definition last_clock (prev : Z) (envs : list TickInput) : Z :=
  last (map clock envs) prev.

(** ** The guarantees as the specification words them *)

(** Energy integration in true time: every call that prints after an
    earlier line adds the power times the hours between the two calls. *)
Definition energy_guarantee : Prop :=
  forall history st0 ems previous env st' r,
    snd (run history st0) = ems ++ [previous] ->
    clock (em_input previous) <= clock env ->
    loop env (fst (run history st0)) = (st', Some r) ->
    totalEnergy st'
    = F32.add (totalEnergy (fst (run history st0)))
        (F32.mul (power r)
           (F64.to_float
              (F64.div (F64.div (F64.of_ulong (clock env - clock (em_input previous)))
                                (F64.const 1000))
                       (F64.const 3600)))).

(** The sample count never goes back from a data line to the next one. *)
Definition count_follows (e1 e2 : Emission) : Prop :=
  sampleCount (em_after e1) <= sampleCount (em_after e2).

Definition count_guarantee : Prop :=
  forall fuel senv out st0 ticks,
    setup fuel senv = (out, Returned st0) ->
    clocks_monotone (session_clock senv) ticks = true ->
    Sorted count_follows (snd (run ticks st0)).

(** The time stamps of a data line and the next one. *)
Definition time_follows (e1 e2 : Emission) : Prop :=
  timestamp (em_record e1) + TRANSMISSION_INTERVAL <= timestamp (em_record e2) /\
  timestamp (em_record e1) < timestamp (em_record e2).

Definition time_guarantee : Prop :=
  forall fuel senv out st0 ticks,
    setup fuel senv = (out, Returned st0) ->
    clocks_monotone (session_clock senv) ticks = true ->
    Sorted time_follows (snd (run ticks st0)).

(** [n] calls with the sensor ready, one every 50 ms after clock [c]. *)
Fixpoint steady (c : Z) (n : nat) : list TickInput :=
  match n with
  | O => []
  | S n' => mkTick (c + 50) true F32.zero F32.zero :: steady (c + 50) n'
  end.

(** A sensor found not ready after the interval is asked again by any
    later call, which prints if the sensor is ready then. *)
Definition retry_guarantee : Prop :=
  forall env st next,
    TRANSMISSION_INTERVAL <= elapsed env st ->
    isConversionReady env = false ->
    clock env <= clock next ->
    isConversionReady next = true ->
    snd (loop next (fst (loop env st))) <> None.

(** Two polls that differ at most in the sign of the reading. *)
Definition same_magnitude (p q : Poll) : Prop :=
  poll_clock p = poll_clock q /\ poll_ready p = poll_ready q /\
  SFabs (poll_current p) = SFabs (poll_current q).

(** ** Sample inputs *)

Module Sample.
(** A [float] written as the decimal literal [n / pow10]. *)
Definition f (n pow10 : Z) : spec_float := F64.to_float (F64.literal n pow10).

(** A start with two ready polls inside the two-second window. *)
Definition start : SetupInput :=
  {| ina_begin := true;
     setMaxCurrentShunt := 0;
     getCurrentLSB_mA := f 152588 10000000;
     baseline_clock := 2000;
     baseline_polls :=
       [mkPoll 2000 true (f 124 10); mkPoll 2010 false (f 0 1);
        mkPoll 3000 true (f (-123) 10); mkPoll 4000 false (f 0 1)];
     getManufacturerID := 21577;
     getDieID := 8800;
     getFreeHeap := 300000;
     session_clock := 4000 |}.

(** The same start with no sensor on the bus. *)
Definition no_sensor : SetupInput :=
  {| ina_begin := false;
     setMaxCurrentShunt := 0;
     getCurrentLSB_mA := f 0 1;
     baseline_clock := 2000;
     baseline_polls := [];
     getManufacturerID := 0;
     getDieID := 0;
     getFreeHeap := 300000;
     session_clock := 4000 |}.

(** The globals [setup] leaves on [start]. *)
Definition session : SessionState :=
  match snd (setup 0 start) with
  | Returned st => st
  | _ => globals0
  end.

(** Five calls of [loop]: a sample, a call too early, a sensor that is
    not ready, a sample below the baseline, a sample. *)
Definition ticks : list TickInput :=
  [mkTick 4050 true (f 5 1) (f 100 1);
   mkTick 4070 true (f 5 1) (f 100 1);
   mkTick 4100 false (f 5 1) (f 100 1);
   mkTick 4130 true (f 5 1) (f 2 1);
   mkTick 4180 true (f 5 1) (f (-100) 1)].

Definition tick (n : nat) : TickInput :=
  nth n ticks (mkTick 0 false F32.zero F32.zero).

(** The record of a call that printed one. *)
Definition printed (out : SessionState * option SampleRecord) : SampleRecord :=
  match snd out with
  | Some r => r
  | None => mkRecord 0 F32.zero F32.zero F32.zero F32.zero F32.zero
  end.

(** The [n]-th data line of a run. *)
Definition emission (n : nat) (envs : list TickInput) (st : SessionState) : Emission :=
  nth n (snd (run envs st))
      (mkEmission (tick 0) st (printed (st, None)) st).
End Sample.

(** * Rounding to nearest even in a format [prec], [emax] *)

Section Rounding.
Variables prec emax : Z.
Hypothesis prec_pos : 0 < prec.
Hypothesis prec_lt_emax : prec < emax.

Local Abbreviation fexp := (fexp prec emax).
Local Abbreviation emin := (emin prec emax).
Local Abbreviation rounded := (rounded prec emax).

Lemma digits2_pos_size (m : positive) : digits2_pos m = Pos.size m.
Proof. induction m; simpl; congruence. Qed.

Lemma Zdigits2_log2 (m : Z) : 0 < m -> Zdigits2 m = Z.log2 m + 1.
Proof.
  destruct m as [|p|p]; try lia. intros _. simpl.
  rewrite digits2_pos_size. destruct p; simpl; lia.
Qed.

Lemma Zdigits2_bounds (m : Z) :
  0 < m -> 2 ^ (Zdigits2 m - 1) <= m < 2 ^ Zdigits2 m.
Proof.
  intros H. rewrite (Zdigits2_log2 m H).
  replace (Z.log2 m + 1 - 1) with (Z.log2 m) by lia.
  apply (Z.log2_spec m H).
Qed.

Lemma Zdigits2_unique (m k : Z) :
  0 < k -> 2 ^ (k - 1) <= m < 2 ^ k -> Zdigits2 m = k.
Proof.
  intros Hk H.
  assert (0 < m) by (pose proof (Z.pow_pos_nonneg 2 (k - 1)); lia).
  rewrite Zdigits2_log2 by assumption.
  rewrite (Z.log2_unique m (k - 1)); try lia.
  replace (Z.succ (k - 1)) with k by lia. assumption.
Qed.

Lemma Zdigits2_pos (m : Z) : 0 < m -> 0 < Zdigits2 m.
Proof. destruct m; simpl; lia. Qed.

Lemma fexp_ge_emin e : emin <= fexp e.
Proof. unfold SpecFloat.fexp. lia. Qed.

Lemma fexp_mono e e' : e <= e' -> fexp e <= fexp e'.
Proof. unfold SpecFloat.fexp. lia. Qed.

(** [shr_1] halves a non-negative mantissa. *)
Lemma shr_1_m mrs : 0 <= shr_m mrs -> shr_m (shr_1 mrs) = shr_m mrs / 2.
Proof.
  destruct mrs as [m r s]. simpl. intros H.
  destruct m as [|p|p]; try lia.
  - reflexivity.
  - destruct p; simpl shr_m.
    + rewrite Pos2Z.inj_xI. apply (Z.div_unique _ 2 _ 1); lia.
    + rewrite Pos2Z.inj_xO. apply (Z.div_unique _ 2 _ 0); lia.
    + reflexivity.
Qed.

Lemma pow2_pos (n : Z) : 0 <= n -> 0 < 2 ^ n.
Proof. intros. apply Z.pow_pos_nonneg; lia. Qed.

Lemma pow2_xO (p : positive) : 2 ^ Zpos p~0 = 2 ^ Zpos p * 2 ^ Zpos p.
Proof. rewrite <- Z.pow_add_r by lia. f_equal. lia. Qed.

Lemma pow2_xI (p : positive) : 2 ^ Zpos p~1 = 2 * (2 ^ Zpos p * 2 ^ Zpos p).
Proof.
  rewrite <- Z.pow_add_r by lia. rewrite <- Z.pow_succ_r by lia. f_equal. lia.
Qed.

Lemma iter_pos_shr_1_m (p : positive) : forall mrs,
  0 <= shr_m mrs -> shr_m (iter_pos shr_1 p mrs) = shr_m mrs / 2 ^ Zpos p.
Proof.
  assert (step : forall mrs, 0 <= shr_m mrs -> 0 <= shr_m (shr_1 mrs)).
  { intros mrs H. rewrite shr_1_m by assumption. apply Z.div_pos; lia. }
  induction p as [p IH|p IH|]; intros mrs H; simpl iter_pos;
    try pose proof (pow2_pos (Zpos p) ltac:(lia)) as P2.
  - assert (0 <= shr_m (iter_pos shr_1 p (shr_1 mrs))).
    { rewrite IH by auto. apply Z.div_pos; auto. }
    rewrite IH, IH, shr_1_m by auto.
    rewrite !Z.div_div by lia. rewrite pow2_xI. reflexivity.
  - assert (0 <= shr_m (iter_pos shr_1 p mrs)).
    { rewrite IH by auto. apply Z.div_pos; auto. }
    rewrite IH by auto. rewrite IH by auto.
    rewrite Z.div_div by lia. rewrite pow2_xO. reflexivity.
  - rewrite shr_1_m by assumption. reflexivity.
Qed.

Lemma shr_record_of_loc_m m l : shr_m (shr_record_of_loc m l) = m.
Proof. destruct l as [|[| |]]; reflexivity. Qed.

(** Mantissa and exponent after [shr_fexp], when no left shift is due. *)
Lemma shr_fexp_spec m e l :
  0 <= m -> e <= fexp (Zdigits2 m + e) ->
  shr_m (fst (shr_fexp prec emax m e l)) = m / 2 ^ (fexp (Zdigits2 m + e) - e)
  /\ snd (shr_fexp prec emax m e l) = fexp (Zdigits2 m + e).
Proof.
  intros Hm He. unfold shr_fexp, shr.
  destruct (fexp (Zdigits2 m + e) - e) as [|p|p] eqn:En; try lia.
  - simpl. rewrite shr_record_of_loc_m, Z.div_1_r. lia.
  - simpl. rewrite iter_pos_shr_1_m; rewrite shr_record_of_loc_m; auto. lia.
Qed.

Lemma round_nearest_even_bounds m l :
  m <= round_nearest_even m l <= m + 1.
Proof.
  destruct l as [|[| |]]; simpl; try lia.
  destruct (Z.even m); lia.
Qed.

Lemma Zdigits2_le (m k : Z) : 0 < m -> 0 <= k -> m < 2 ^ k -> Zdigits2 m <= k.
Proof.
  intros Hm Hk H. pose proof (Zdigits2_bounds m Hm) as [L _].
  pose proof (Zdigits2_pos m Hm).
  apply Z.lt_succ_r. replace (Z.succ k) with (k + 1) by lia.
  assert (Zdigits2 m - 1 < k); [|lia].
  apply (Z.pow_lt_mono_r_iff 2); lia.
Qed.

Lemma Zdigits2_ge (m k : Z) : 0 < m -> 2 ^ (k - 1) <= m -> k <= Zdigits2 m.
Proof.
  intros Hm H. pose proof (Zdigits2_bounds m Hm) as [_ U].
  pose proof (Zdigits2_pos m Hm).
  assert (k - 1 < Zdigits2 m); [|lia].
  apply (Z.pow_lt_mono_r_iff 2); lia.
Qed.

Lemma shr_fexp_noshift m e l :
  fexp (Zdigits2 m + e) <= e ->
  shr_fexp prec emax m e l = (shr_record_of_loc m l, e).
Proof.
  intros H. unfold shr_fexp, shr.
  destruct (fexp (Zdigits2 m + e) - e) eqn:En; try reflexivity; lia.
Qed.

Lemma cut_bounds mx ex :
  0 < mx -> ex <= fexp (Zdigits2 mx + ex) ->
  let e1 := fexp (Zdigits2 mx + ex) in
  let m1 := mx / 2 ^ (e1 - ex) in
  0 <= m1 < 2 ^ prec /\ (emin < e1 -> 2 ^ (prec - 1) <= m1).
Proof.
  intros Hm He e1 m1.
  pose proof (Zdigits2_bounds mx Hm) as [L U].
  pose proof (Zdigits2_pos mx Hm) as Hd.
  assert (Hn : 0 <= e1 - ex) by (unfold e1; lia).
  pose proof (pow2_pos (e1 - ex) Hn) as P.
  assert (Hd' : Zdigits2 mx <= prec + (e1 - ex)).
  { unfold e1, SpecFloat.fexp. lia. }
  repeat split.
  - apply Z.div_pos; lia.
  - apply Z.div_lt_upper_bound; [lia|].
    rewrite <- Z.pow_add_r by lia.
    eapply Z.lt_le_trans; [exact U|].
    apply Z.pow_le_mono_r; lia.
  - intros Hmin.
    assert (E : Zdigits2 mx - 1 = (e1 - ex) + (prec - 1)).
    { unfold e1, SpecFloat.fexp in *. lia. }
    apply Z.div_le_lower_bound; [lia|].
    rewrite <- Z.pow_add_r by lia. rewrite <- E. exact L.
Qed.

Lemma binary_round_aux_rounded s mx ex lx :
  0 < mx -> ex <= fexp (Zdigits2 mx + ex) ->
  rounded s (mx / 2 ^ (fexp (Zdigits2 mx + ex) - ex)) (fexp (Zdigits2 mx + ex))
    (binary_round_aux prec emax s mx ex lx).
Proof.
  intros Hm He.
  destruct (cut_bounds mx ex Hm He) as [[L U] N].
  destruct (shr_fexp_spec mx ex lx (Z.lt_le_incl _ _ Hm) He) as [E1 E2].
  pose proof (fexp_ge_emin (Zdigits2 mx + ex)) as Hmin.
  unfold binary_round_aux.
  destruct (shr_fexp prec emax mx ex lx) as [mrs' e']. simpl in E1, E2. subst e'.
  set (e1 := fexp (Zdigits2 mx + ex)) in *.
  set (m1 := mx / 2 ^ (e1 - ex)) in *.
  pose proof (round_nearest_even_bounds (shr_m mrs') (loc_of_shr_record mrs')) as B.
  set (m2 := round_nearest_even (shr_m mrs') (loc_of_shr_record mrs')) in *.
  rewrite E1 in B.
  pose proof (pow2_pos (prec - 1) ltac:(lia)) as P1.
  assert (P2 : 2 ^ prec = 2 * 2 ^ (prec - 1)).
  { rewrite <- Z.pow_succ_r by lia. f_equal. lia. }
  destruct (Z.eq_dec m2 0) as [Z2|NZ2].
  { (* nothing left *)
    rewrite Z2. rewrite shr_fexp_noshift.
    - simpl. apply rounded_zero. lia.
    - simpl. unfold SpecFloat.fexp. unfold e1 in *. lia. }
  destruct (Z_lt_le_dec m2 (2 ^ prec)) as [Lt2|Ge2].
  - (* no carry *)
    assert (D2 : fexp (Zdigits2 m2 + e1) = e1).
    { assert (Zdigits2 m2 <= prec) by (apply Zdigits2_le; lia).
      pose proof (Zdigits2_pos m2 ltac:(lia)).
      destruct (Z.eq_dec e1 emin) as [Em|Em].
      - unfold SpecFloat.fexp. lia.
      - assert (prec <= Zdigits2 m2) by (apply Zdigits2_ge; lia).
        unfold SpecFloat.fexp. lia. }
    rewrite shr_fexp_noshift by lia. simpl.
    destruct m2 as [|p|p] eqn:Em2; try lia.
    destruct (e1 <=? emax - prec) eqn:Ee; [|apply rounded_inf; lia].
    apply rounded_fin.
    + unfold bounded, canonical_mantissa.
      change (Zpos (digits2_pos p)) with (Zdigits2 (Zpos p)).
      rewrite D2, Z.eqb_refl, Ee. reflexivity.
    + left. lia.
  - (* the rounding carried into a new digit *)
    assert (Em2 : m2 = 2 ^ prec) by lia.
    assert (Dg : Zdigits2 m2 = prec + 1).
    { apply Zdigits2_unique; [lia|]. rewrite Em2.
      replace (prec + 1 - 1) with prec by lia.
      split; [lia|]. apply Z.pow_lt_mono_r; lia. }
    assert (D2 : fexp (Zdigits2 m2 + e1) = e1 + 1).
    { rewrite Dg. unfold SpecFloat.fexp. lia. }
    destruct (shr_fexp_spec m2 e1 loc_Exact ltac:(lia) ltac:(lia)) as [F1 F2].
    destruct (shr_fexp prec emax m2 e1 loc_Exact) as [mrs2 e2].
    simpl in F1, F2. subst e2. rewrite D2 in *.
    replace (e1 + 1 - e1) with 1 in F1 by lia.
    rewrite Z.pow_1_r, Em2, P2 in F1.
    rewrite Z.mul_comm, Z.div_mul in F1 by lia.
    rewrite F1.
    destruct (2 ^ (prec - 1)) as [|p|p] eqn:Ep; try lia.
    destruct (e1 + 1 <=? emax - prec) eqn:Ee; [|apply rounded_inf; lia].
    apply rounded_fin.
    + unfold bounded, canonical_mantissa. rewrite Ee, andb_true_r.
      apply Z.eqb_eq.
      change (Zpos (digits2_pos p)) with (Zdigits2 (Zpos p)).
      rewrite (Zdigits2_unique (Zpos p) prec); [|lia|].
      * unfold SpecFloat.fexp. lia.
      * rewrite <- Ep. rewrite P2. lia.
    + right. lia.
Qed.

Lemma rounded_valid s m1 e1 r : rounded s m1 e1 r -> valid_binary prec emax r = true.
Proof. destruct 1; simpl; auto. Qed.

(** ** Alignment *)

Lemma iter_xO (d m : positive) : Zpos (Pos.iter xO m d) = Zpos m * 2 ^ Zpos d.
Proof.
  induction d as [|d IH] using Pos.peano_ind.
  - simpl. lia.
  - rewrite Pos.iter_succ, Pos2Z.inj_xO, IH, Pos2Z.inj_succ.
    rewrite Z.pow_succ_r by lia. ring.
Qed.

Lemma shl_align_spec mx ex ex' :
  snd (shl_align mx ex ex') = Z.min ex ex' /\
  Zpos (fst (shl_align mx ex ex')) = Zpos mx * 2 ^ (ex - Z.min ex ex').
Proof.
  unfold shl_align. destruct (ex' - ex) as [|d|d] eqn:E; cbn [fst snd].
  - replace (Z.min ex ex') with ex by lia. rewrite Z.sub_diag, Z.pow_0_r. lia.
  - replace (Z.min ex ex') with ex by lia. rewrite Z.sub_diag, Z.pow_0_r. lia.
  - replace (Z.min ex ex') with ex' by lia. split; [reflexivity|].
    rewrite iter_xO. do 2 f_equal. lia.
Qed.

Lemma Zdigits2_mul_pow2 (m k : Z) :
  0 < m -> 0 <= k -> Zdigits2 (m * 2 ^ k) = Zdigits2 m + k.
Proof.
  intros Hm Hk. pose proof (Zdigits2_bounds m Hm) as [L U].
  pose proof (Zdigits2_pos m Hm). pose proof (pow2_pos k Hk).
  apply Zdigits2_unique; [lia|].
  replace (Zdigits2 m + k - 1) with (Zdigits2 m - 1 + k) by lia.
  rewrite !Z.pow_add_r by lia. nia.
Qed.

(** [binary_round] first aligns, so that nothing has to be assumed. *)
Lemma binary_round_rounded s mx ex :
  let e1 := fexp (Zpos (digits2_pos mx) + ex) in
  exists mz ez,
    ez = Z.min ex e1 /\ Zpos mz = Zpos mx * 2 ^ (ex - ez) /\
    rounded s (Zpos mz / 2 ^ (e1 - ez)) e1 (binary_round prec emax s mx ex).
Proof.
  intros e1. unfold binary_round. fold e1.
  destruct (shl_align_spec mx ex e1) as [E M].
  destruct (shl_align mx ex e1) as [mz ez]. cbn [fst snd] in E, M.
  exists mz, ez. split; [assumption|]. split; [rewrite E; assumption|].
  assert (D : Zdigits2 (Zpos mz) + ez = Zpos (digits2_pos mx) + ex).
  { rewrite M, Zdigits2_mul_pow2 by lia. cbn [Zdigits2]. lia. }
  assert (F : fexp (Zdigits2 (Zpos mz) + ez) = e1) by (rewrite D; reflexivity).
  rewrite <- F at 1 2. apply binary_round_aux_rounded; [lia|]. rewrite F. lia.
Qed.

Lemma binary_round_valid s mx ex :
  valid_binary prec emax (binary_round prec emax s mx ex) = true.
Proof.
  destruct (binary_round_rounded s mx ex) as (mz & ez & _ & _ & R).
  exact (rounded_valid _ _ _ _ R).
Qed.

Lemma binary_normalize_valid m e szero :
  valid_binary prec emax (binary_normalize prec emax m e szero) = true.
Proof. destruct m; simpl; auto using binary_round_valid. Qed.

Lemma SFadd_valid x y :
  valid_binary prec emax x = true -> valid_binary prec emax y = true ->
  valid_binary prec emax (SFadd prec emax x y) = true.
Proof.
  destruct x as [sx|sx| |sx mx ex], y as [sy|sy| |sy my ey]; intros Hx Hy;
    try (unfold SFadd; apply binary_normalize_valid);
    try assumption; try reflexivity;
    destruct sx, sy; reflexivity || assumption.
Qed.

(** ** Valid finite numbers *)

Lemma bounded_inv m e :
  bounded prec emax m e = true ->
  emin <= e <= emax - prec /\
  0 < Zdigits2 (Zpos m) <= prec /\
  (emin < e -> Zdigits2 (Zpos m) = prec) /\
  fexp (Zdigits2 (Zpos m) + e) = e.
Proof.
  unfold bounded, canonical_mantissa. rewrite andb_true_iff, Z.eqb_eq, Z.leb_le.
  change (Zpos (digits2_pos m)) with (Zdigits2 (Zpos m)).
  pose proof (Zdigits2_pos (Zpos m) ltac:(lia)).
  unfold SpecFloat.fexp. lia.
Qed.

Lemma Zdigits2_mono (m n : Z) : 0 < m -> m <= n -> Zdigits2 m <= Zdigits2 n.
Proof.
  intros Hm Hn. rewrite !Zdigits2_log2 by lia.
  pose proof (Z.log2_le_mono m n Hn). lia.
Qed.

Lemma SFmul_finite_rounded sx mx ex sy my ey :
  bounded prec emax mx ex = true -> bounded prec emax my ey = true ->
  exists m1 e1,
    rounded (xorb sx sy) m1 e1
      (SFmul prec emax (S754_finite sx mx ex) (S754_finite sy my ey)).
Proof.
  intros Hx Hy.
  destruct (bounded_inv _ _ Hx) as (Ex & Dx & Nx & Cx).
  destruct (bounded_inv _ _ Hy) as (Ey & Dy & Ny & Cy).
  unfold SFmul. do 2 eexists. apply binary_round_aux_rounded; [lia|].
  pose proof (Zdigits2_bounds (Zpos mx) ltac:(lia)) as [Lx _].
  pose proof (Zdigits2_bounds (Zpos my) ltac:(lia)) as [Ly _].
  assert (D : Zdigits2 (Zpos mx) + Zdigits2 (Zpos my) - 1
              <= Zdigits2 (Zpos (mx * my))).
  { apply Zdigits2_ge; [lia|].
    replace (Zdigits2 (Zpos mx) + Zdigits2 (Zpos my) - 1 - 1)
      with ((Zdigits2 (Zpos mx) - 1) + (Zdigits2 (Zpos my) - 1)) by lia.
    rewrite Z.pow_add_r, Pos2Z.inj_mul by lia.
    pose proof (pow2_pos (Zdigits2 (Zpos mx) - 1) ltac:(lia)).
    pose proof (pow2_pos (Zdigits2 (Zpos my) - 1) ltac:(lia)).
    nia. }
  revert D. generalize (Zdigits2 (Zpos (mx * my))). intros d D.
  unfold SpecFloat.fexp, SpecFloat.emin in *. lia.
Qed.

Lemma SFmul_valid x y :
  valid_binary prec emax x = true -> valid_binary prec emax y = true ->
  valid_binary prec emax (SFmul prec emax x y) = true.
Proof.
  destruct x as [sx|sx| |sx mx ex], y as [sy|sy| |sy my ey]; try reflexivity.
  intros Hx Hy. cbn [valid_binary] in Hx, Hy.
  destruct (SFmul_finite_rounded sx mx ex sy my ey Hx Hy) as (m1 & e1 & R).
  exact (rounded_valid _ _ _ _ R).
Qed.

(** ** Signs *)

Lemma nonneg_cases x :
  nonneg x = true <->
  (exists s, x = S754_zero s) \/ x = S754_infinity false \/
  (exists m e, x = S754_finite false m e).
Proof.
  unfold nonneg, SFleb. split.
  - destruct x as [s|[|]| |[|] m e]; simpl; intros H; try discriminate; eauto.
  - intros [[s ->]|[->|(m & e & ->)]]; reflexivity.
Qed.

Lemma SFleb_refl x : x <> S754_nan -> SFleb x x = true.
Proof.
  unfold SFleb. destruct x as [s|[|]| |[|] m e]; simpl; try congruence;
    rewrite Z.compare_refl, Pos.compare_cont_refl; reflexivity.
Qed.

(** ** Rounding against a representable lower bound *)

Lemma binary_round_lower (p : positive) (ez : Z) (mx : positive) (ex : Z) :
  bounded prec emax mx ex = true -> ez <= ex ->
  Zpos mx * 2 ^ (ex - ez) <= Zpos p ->
  binary_round prec emax false p ez = S754_infinity false \/
  exists m e,
    binary_round prec emax false p ez = S754_finite false m e /\
    bounded prec emax m e = true /\
    (ex < e \/ (e = ex /\ Zpos mx <= Zpos m)).
Proof.
  intros Hx Hz Hp.
  destruct (bounded_inv _ _ Hx) as (Ex & Dx & Nx & Cx).
  destruct (binary_round_rounded false p ez) as (mz & ez' & E & M & R).
  change (Zpos (digits2_pos p)) with (Zdigits2 (Zpos p)) in *.
  set (e1 := fexp (Zdigits2 (Zpos p) + ez)) in *.
  pose proof (pow2_pos (ex - ez) ltac:(lia)) as P.
  assert (G : ex <= e1).
  { rewrite <- Cx. apply fexp_mono.
    assert (Zdigits2 (Zpos mx) + (ex - ez) <= Zdigits2 (Zpos p)); [|lia].
    rewrite <- Zdigits2_mul_pow2 by lia. apply Zdigits2_mono; lia. }
  assert (Q0 : ez' = ez) by lia. clear E. subst ez'.
  rewrite Z.sub_diag, Z.pow_0_r, Z.mul_1_r in M. rewrite M in R.
  assert (L : e1 = ex -> Zpos mx <= Zpos p / 2 ^ (e1 - ez)).
  { intros ->. apply Z.div_le_lower_bound; lia. }
  assert (N : 1 <= Zpos p / 2 ^ (e1 - ez)).
  { destruct (Z.eq_dec e1 ex) as [Q|Q]; [specialize (L Q); lia|].
    destruct (cut_bounds (Zpos p) ez ltac:(lia) ltac:(fold e1; lia)) as [_ B].
    fold e1 in B. pose proof (pow2_pos (prec - 1) ltac:(lia)). lia. }
  inversion R as [Z0|I0|m e B C]; subst.
  - lia.
  - left. reflexivity.
  - right. exists m, e. repeat split; auto.
    destruct (Z.eq_dec e1 ex) as [Q|Q]; [specialize (L Q)|]; lia.
Qed.

Lemma binary_round_nonzero s (p : positive) (e : Z) :
  emin <= e ->
  binary_round prec emax s p e = S754_infinity s \/
  exists m e', binary_round prec emax s p e = S754_finite s m e' /\
               bounded prec emax m e' = true.
Proof.
  intros He.
  destruct (binary_round_rounded s p e) as (mz & ez & E & M & R).
  change (Zpos (digits2_pos p)) with (Zdigits2 (Zpos p)) in *.
  set (e1 := fexp (Zdigits2 (Zpos p) + e)) in *.
  assert (N : 1 <= Zpos mz / 2 ^ (e1 - ez)).
  { destruct (Z_le_gt_dec e1 e) as [Q|Q].
    - replace (e1 - ez) with 0 by lia. rewrite Z.pow_0_r, Z.div_1_r. lia.
    - assert (Q0 : ez = e) by lia. clear E. subst ez.
      rewrite Z.sub_diag, Z.pow_0_r, Z.mul_1_r in M.
      destruct (cut_bounds (Zpos p) e ltac:(lia) ltac:(fold e1; lia)) as [_ B].
      fold e1 in B. rewrite M. pose proof (pow2_pos (prec - 1) ltac:(lia)). lia. }
  inversion R as [Z0|I0|m e' B C]; subst.
  - lia.
  - left. reflexivity.
  - right. exists m, e'. auto.
Qed.

(** ** Adding a non-negative number never decreases a non-negative one *)

Lemma SFadd_nonneg_le x y :
  valid_binary prec emax x = true -> valid_binary prec emax y = true ->
  nonneg x = true -> nonneg y = true ->
  SFleb x (SFadd prec emax x y) = true /\ nonneg (SFadd prec emax x y) = true.
Proof.
  intros Vx Vy Nx Ny.
  apply nonneg_cases in Nx. apply nonneg_cases in Ny.
  destruct Nx as [[sx ->]|[->|(mx & ex & ->)]];
    destruct Ny as [[sy ->]|[->|(my & ey & ->)]];
    try (split; reflexivity);
    try (destruct sx, sy; split; reflexivity);
    try (destruct sx; split; reflexivity);
    try (destruct sy; split; reflexivity).
  - (* x + 0 *)
    split; [|reflexivity].
    replace (SFadd prec emax (S754_finite false mx ex) (S754_zero sy))
      with (S754_finite false mx ex) by (destruct sy; reflexivity).
    apply SFleb_refl. discriminate.
  - (* two positive finite numbers *)
    cbn [valid_binary] in Vx, Vy.
    unfold SFadd. cbn [cond_Zopp].
    set (ez := Z.min ex ey).
    destruct (shl_align_spec mx ex ez) as [_ Mx].
    destruct (shl_align_spec my ey ez) as [_ My].
    set (a := fst (shl_align mx ex ez)) in *.
    set (b := fst (shl_align my ey ez)) in *.
    change (Zpos a + Zpos b) with (Zpos (a + b)). cbn [binary_normalize].
    replace (Z.min ex ez) with ez in Mx by (unfold ez; lia).
    destruct (binary_round_lower (a + b) ez mx ex Vx) as [->|(m & e & -> & B & C)].
    + unfold ez; lia.
    + rewrite Pos2Z.inj_add, Mx. lia.
    + split; reflexivity.
    + split; [|reflexivity]. unfold SFleb, SFcompare.
      destruct C as [C|[-> C]].
      * apply Z.compare_lt_iff in C. rewrite C. reflexivity.
      * rewrite Z.compare_refl.
        change (Pos.compare_cont Eq mx m) with (mx ?= m)%positive.
        destruct (mx ?= m)%positive eqn:Q; try reflexivity.
        pose proof (proj1 (Pos.compare_gt_iff mx m) Q). lia.
Qed.

Lemma binary_round_aux_sign s mx ex lx :
  match binary_round_aux prec emax s mx ex lx with
  | S754_zero s' | S754_infinity s' | S754_finite s' _ _ => s' = s
  | S754_nan => True
  end.
Proof.
  unfold binary_round_aux.
  destruct (shr_fexp prec emax mx ex lx) as [r1 e1].
  destruct (shr_fexp prec emax _ e1 loc_Exact) as [r2 e2].
  destruct (shr_m r2); auto. destruct (e2 <=? emax - prec); auto.
Qed.

Lemma SFmul_nonneg x y :
  nonneg x = true -> nonneg y = true -> SFmul prec emax x y <> S754_nan ->
  nonneg (SFmul prec emax x y) = true.
Proof.
  intros Nx Ny.
  apply nonneg_cases in Nx. apply nonneg_cases in Ny.
  destruct Nx as [[sx ->]|[->|(mx & ex & ->)]];
    destruct Ny as [[sy ->]|[->|(my & ey & ->)]];
    cbn [SFmul xorb]; intros H; try reflexivity; try congruence.
  pose proof (binary_round_aux_sign false (Zpos (mx * my)) (ex + ey) loc_Exact) as S.
  destruct (binary_round_aux prec emax false (Zpos (mx * my)) (ex + ey) loc_Exact);
    try congruence; subst; reflexivity.
Qed.

Lemma SFmul_nonneg_finite x m e :
  valid_binary prec emax x = true -> bounded prec emax m e = true ->
  nonneg x = true ->
  nonneg (SFmul prec emax x (S754_finite false m e)) = true.
Proof.
  intros Vx B Nx. apply SFmul_nonneg; auto.
  apply nonneg_cases in Nx.
  destruct Nx as [[sx ->]|[->|(mx & ex & ->)]]; try discriminate.
  cbn [valid_binary] in Vx.
  destruct (SFmul_finite_rounded false mx ex false m e Vx B) as (m1 & e1 & R).
  intros Q. rewrite Q in R. inversion R.
Qed.

(** ** The difference of a smaller and a larger number is negative *)

Lemma canonical_lt mx ex my ey :
  bounded prec emax mx ex = true -> bounded prec emax my ey = true ->
  ex < ey -> Zpos mx < Zpos my * 2 ^ (ey - ex).
Proof.
  intros Hx Hy L.
  destruct (bounded_inv _ _ Hx) as (Ex & Dx & Nx & Cx).
  destruct (bounded_inv _ _ Hy) as (Ey & Dy & Ny & Cy).
  pose proof (Zdigits2_bounds (Zpos mx) ltac:(lia)) as [_ Ux].
  pose proof (Zdigits2_bounds (Zpos my) ltac:(lia)) as [Ly _].
  rewrite Ny in Ly by lia.
  assert (Zpos mx < 2 ^ prec).
  { eapply Z.lt_le_trans; [exact Ux|]. apply Z.pow_le_mono_r; lia. }
  assert (2 ^ prec = 2 * 2 ^ (prec - 1)).
  { rewrite <- Z.pow_succ_r by lia. f_equal. lia. }
  assert (2 ^ 1 <= 2 ^ (ey - ex)) by (apply Z.pow_le_mono_r; lia).
  rewrite Z.pow_1_r in *.
  pose proof (pow2_pos (prec - 1) ltac:(lia)). nia.
Qed.

Lemma SFsub_finite_negative sx mx ex sy my ey :
  bounded prec emax mx ex = true -> bounded prec emax my ey = true ->
  SFcompare (S754_finite sx mx ex) (S754_finite sy my ey) = Some Lt ->
  negative (SFsub prec emax (S754_finite sx mx ex) (S754_finite sy my ey)) = true.
Proof.
  intros Hx Hy H.
  destruct (bounded_inv _ _ Hx) as (Ex & _).
  destruct (bounded_inv _ _ Hy) as (Ey & _).
  unfold SFsub.
  set (ez := Z.min ex ey).
  destruct (shl_align_spec mx ex ez) as [_ Mx].
  destruct (shl_align_spec my ey ez) as [_ My].
  set (a := fst (shl_align mx ex ez)) in *.
  set (b := fst (shl_align my ey ez)) in *.
  replace (Z.min ex ez) with ez in Mx by (unfold ez; lia).
  replace (Z.min ey ez) with ez in My by (unfold ez; lia).
  assert (M : cond_Zopp sx (Zpos a) - cond_Zopp sy (Zpos b) < 0).
  { unfold SFcompare in H.
    destruct sx, sy; cbn [cond_Zopp]; try discriminate; try lia.
    - destruct (Z.compare_spec ex ey) as [Q|Q|Q]; try discriminate.
      + subst ey. replace ez with ex in * by (unfold ez; lia).
        rewrite Z.sub_diag, Z.pow_0_r in *.
        change (Pos.compare_cont Eq mx my) with (mx ?= my)%positive in H.
        destruct (mx ?= my)%positive eqn:C; try discriminate.
        pose proof (proj1 (Pos.compare_gt_iff mx my) C). lia.
      + replace ez with ey in * by (unfold ez; lia).
        rewrite Z.sub_diag, Z.pow_0_r in *.
        pose proof (canonical_lt my ey mx ex Hy Hx Q). lia.
    - destruct (Z.compare_spec ex ey) as [Q|Q|Q]; try discriminate.
      + subst ey. replace ez with ex in * by (unfold ez; lia).
        rewrite Z.sub_diag, Z.pow_0_r in *.
        change (Pos.compare_cont Eq mx my) with (mx ?= my)%positive in H.
        destruct (mx ?= my)%positive eqn:C; try discriminate.
        pose proof (proj1 (Pos.compare_lt_iff mx my) C). lia.
      + replace ez with ex in * by (unfold ez; lia).
        rewrite Z.sub_diag, Z.pow_0_r in *.
        pose proof (canonical_lt mx ex my ey Hx Hy Q). lia. }
  destruct (cond_Zopp sx (Zpos a) - cond_Zopp sy (Zpos b)) as [|p|p]; try lia.
  cbn [binary_normalize].
  destruct (binary_round_nonzero true p ez ltac:(unfold ez; lia))
    as [->|(m & e & -> & _)]; reflexivity.
Qed.

Lemma SFsub_lt_negative x y :
  valid_binary prec emax x = true -> valid_binary prec emax y = true ->
  SFltb x y = true -> negative (SFsub prec emax x y) = true.
Proof.
  intros Vx Vy H.
  destruct x as [sx|sx| |sx mx ex], y as [sy|sy| |sy my ey];
    try (apply SFsub_finite_negative; auto; unfold SFltb in H;
         destruct (SFcompare _ _) as [[| |]|]; congruence);
    try (destruct sx; discriminate H || reflexivity);
    try (destruct sy; discriminate H || reflexivity);
    try discriminate H;
    destruct sx, sy; discriminate H || reflexivity.
Qed.

(** ** Results that stay in the normal range *)

Lemma binary_round_aux_normal s mx ex lx :
  0 < mx ->
  ex <= fexp (Zdigits2 mx + ex) ->
  emin < fexp (Zdigits2 mx + ex) < emax - prec ->
  exists m e,
    binary_round_aux prec emax s mx ex lx = S754_finite s m e /\
    bounded prec emax m e = true /\
    Zdigits2 mx + ex <= mag m e <= Zdigits2 mx + ex + 1.
Proof.
  intros Hm He Hn.
  destruct (cut_bounds mx ex Hm He) as [_ N]. specialize (N ltac:(lia)).
  pose proof (pow2_pos (prec - 1) ltac:(lia)) as P.
  pose proof (binary_round_aux_rounded s mx ex lx Hm He) as R.
  inversion R as [Z0|I0|m e B C]; subst; try lia.
  exists m, e. repeat split; auto;
    destruct (bounded_inv _ _ B) as (_ & _ & Dm & _);
    unfold mag; rewrite Dm by lia;
    unfold SpecFloat.fexp in *; lia.
Qed.

Lemma binary_round_normal s mx ex :
  emin < fexp (mag mx ex) < emax - prec ->
  exists m e,
    binary_round prec emax s mx ex = S754_finite s m e /\
    bounded prec emax m e = true /\
    mag mx ex <= mag m e <= mag mx ex + 1.
Proof.
  intros Hn. unfold binary_round.
  change (Zpos (digits2_pos mx)) with (Zdigits2 (Zpos mx)).
  fold (mag mx ex).
  destruct (shl_align_spec mx ex (fexp (mag mx ex))) as [E M].
  destruct (shl_align mx ex (fexp (mag mx ex))) as [mz ez]. cbn [fst snd] in E, M.
  assert (D : Zdigits2 (Zpos mz) + ez = mag mx ex).
  { rewrite M, Zdigits2_mul_pow2 by lia. unfold mag in *. lia. }
  rewrite <- D. apply binary_round_aux_normal; rewrite ?D; lia.
Qed.

Lemma SFdiv_normal sx mx ex sy my ey :
  emin < fexp (mag mx ex - mag my ey) ->
  fexp (mag mx ex - mag my ey + 1) < emax - prec ->
  exists m e,
    SFdiv prec emax (S754_finite sx mx ex) (S754_finite sy my ey)
      = S754_finite (xorb sx sy) m e /\
    bounded prec emax m e = true /\
    mag mx ex - mag my ey <= mag m e <= mag mx ex - mag my ey + 2.
Proof.
  intros H1 H2. unfold SFdiv, SFdiv_core_binary. unfold mag in *.
  set (d1 := Zdigits2 (Zpos mx)) in *. set (d2 := Zdigits2 (Zpos my)) in *.
  set (E := d1 + ex - (d2 + ey)) in *.
  set (e' := Z.min (fexp E) (ex - ey)).
  set (s := ex - ey - e').
  assert (Es : s = ex - ey - e') by reflexivity.
  assert (Ee' : e' = Z.min (fexp E) (ex - ey)) by reflexivity.
  clearbody s e'.
  assert (Hs : 0 <= s) by lia.
  set (m' := match s with Zpos _ => Z.shiftl (Zpos mx) s | 0 => Zpos mx | Zneg _ => 0 end).
  assert (Hm' : m' = Zpos mx * 2 ^ s).
  { unfold m'. clear - Hs. destruct s as [|p|p]; try lia.
    rewrite Z.shiftl_mul_pow2 by lia. reflexivity. }
  clearbody m'.
  pose proof (Z_div_mod m' (Zpos my) ltac:(lia)) as DM.
  destruct (Z.div_eucl m' (Zpos my)) as [q r]. destruct DM as [DM Hr].
  pose proof (Zdigits2_bounds (Zpos mx) ltac:(lia)) as [L1 U1].
  pose proof (Zdigits2_bounds (Zpos my) ltac:(lia)) as [L2 U2].
  pose proof (Zdigits2_pos (Zpos mx) ltac:(lia)) as P1.
  pose proof (Zdigits2_pos (Zpos my) ltac:(lia)) as P2.
  fold d1 in L1, U1, P1. fold d2 in L2, U2, P2.
  set (k := d1 + s - d2).
  assert (Hk : prec <= k).
  { unfold k, E, SpecFloat.fexp in *. lia. }
  assert (Q : 2 ^ (k - 1) <= q < 2 ^ (k + 1)).
  { pose proof (pow2_pos s Hs) as Ps.
    assert (A1 : 2 ^ (k + 1) * 2 ^ (d2 - 1) = 2 ^ d1 * 2 ^ s).
    { rewrite <- !Z.pow_add_r by lia. f_equal. unfold k. lia. }
    assert (A2 : 2 ^ (k - 1) * 2 ^ d2 = 2 ^ (d1 - 1) * 2 ^ s).
    { rewrite <- !Z.pow_add_r by lia. f_equal. unfold k. lia. }
    pose proof (pow2_pos (k + 1) ltac:(lia)).
    pose proof (pow2_pos (k - 1) ltac:(lia)).
    pose proof (pow2_pos (d2 - 1) ltac:(lia)).
    pose proof (pow2_pos (d1 - 1) ltac:(lia)).
    split.
    - destruct (Z_lt_le_dec q (2 ^ (k - 1))) as [C|C]; [|assumption].
      exfalso.
      assert ((q + 1) * Zpos my <= 2 ^ (k - 1) * Zpos my) by nia.
      assert (2 ^ (k - 1) * Zpos my < 2 ^ (k - 1) * 2 ^ d2) by nia.
      nia.
    - destruct (Z_lt_le_dec q (2 ^ (k + 1))) as [C|C]; [assumption|].
      exfalso.
      assert (2 ^ (k + 1) * 2 ^ (d2 - 1) <= q * Zpos my) by nia.
      nia. }
  pose proof (pow2_pos (k - 1) ltac:(lia)) as Pk.
  assert (Hq : 0 < q) by lia.
  assert (Dq : k <= Zdigits2 q <= k + 1).
  { split; [apply Zdigits2_ge|apply Zdigits2_le]; lia. }
  assert (Ek : k + e' = E) by (unfold k, E; lia).
  destruct (binary_round_aux_normal (xorb sx sy) q e' (new_location (Zpos my) r) Hq)
    as (m & e & -> & B & M).
  - pose proof (fexp_mono E (Zdigits2 q + e') ltac:(lia)). lia.
  - pose proof (fexp_mono E (Zdigits2 q + e') ltac:(lia)).
    pose proof (fexp_mono (Zdigits2 q + e') (E + 1) ltac:(lia)). lia.
  - exists m, e. repeat split; auto; unfold mag in *; lia.
Qed.
End Rounding.

(** * The two formats of the sketch *)

Lemma F32_prec_pos : 0 < F32.prec.
Proof. reflexivity. Qed.

Lemma F32_prec_lt_emax : F32.prec < F32.emax.
Proof. reflexivity. Qed.

Lemma const_1000 : F64.const 1000 = S754_finite false 8796093022208000 (-43).
Proof. vm_compute. reflexivity. Qed.

Lemma const_3600 : F64.const 3600 = S754_finite false 7916483719987200 (-41).
Proof. vm_compute. reflexivity. Qed.

(** The two divisors are exact, and so is their product: one hour in
    milliseconds. *)
Lemma hour_in_millis :
  SFmul F64.prec F64.emax (F64.const 1000) (F64.const 3600) = F64.const 3600000.
Proof. vm_compute. reflexivity. Qed.

Lemma CORRECTION_FACTOR_value :
  CORRECTION_FACTOR = S754_finite false 16240345 (-24).
Proof. vm_compute. reflexivity. Qed.

Lemma SFabs_valid prec emax x :
  valid_binary prec emax x = true -> valid_binary prec emax (SFabs x) = true.
Proof. destruct x; auto. Qed.

Lemma corrected_valid raw :
  F32.valid raw = true -> F32.valid (corrected raw) = true.
Proof.
  intros H. unfold corrected, F32.valid, F32.mul, F32.abs.
  apply (SFmul_valid _ _ F32_prec_pos F32_prec_lt_emax).
  - apply SFabs_valid. exact H.
  - rewrite CORRECTION_FACTOR_value. reflexivity.
Qed.

(** For every non-zero [unsigned long] difference the time step is a
    positive finite [float]. *)
Lemma deltaTime_finite (d : Z) :
  0 < d < ULong.modulus ->
  exists m e, deltaTime d = S754_finite false m e /\
              bounded F32.prec F32.emax m e = true.
Proof.
  intros Hd. unfold deltaTime, F64.of_ulong.
  destruct d as [|p|p]; try lia. cbn [binary_normalize].
  assert (D0 : 1 <= mag p 0 <= 32).
  { unfold mag. pose proof (Zdigits2_pos (Zpos p) ltac:(lia)).
    assert (Zdigits2 (Zpos p) <= 32); [|lia].
    apply Zdigits2_le; try lia. exact (proj2 Hd). }
  destruct (binary_round_normal 53 1024 ltac:(lia) false p 0)
    as (m0 & e0 & E0 & B0 & M0).
  { unfold fexp, emin. lia. }
  unfold F64.prec, F64.emax. rewrite E0, const_1000, const_3600.
  unfold F64.div, F64.prec, F64.emax.
  assert (K1 : mag 8796093022208000 (-43) = 10) by reflexivity.
  assert (K2 : mag 7916483719987200 (-41) = 12) by reflexivity.
  destruct (SFdiv_normal 53 1024 ltac:(lia)
              false m0 e0 false 8796093022208000 (-43))
    as (m1 & e1 & E1 & B1 & M1).
  { rewrite K1. unfold fexp, emin. lia. }
  { rewrite K1. unfold fexp, emin. lia. }
  rewrite E1. cbn [xorb].
  destruct (SFdiv_normal 53 1024 ltac:(lia)
              false m1 e1 false 7916483719987200 (-41))
    as (m2 & e2 & E2 & B2 & M2).
  { rewrite K1, K2 in *. unfold fexp, emin. lia. }
  { rewrite K1, K2 in *. unfold fexp, emin. lia. }
  rewrite E2. cbn [xorb F64.to_float].
  destruct (binary_round_normal 24 128 ltac:(lia) false m2 e2)
    as (m3 & e3 & E3 & B3 & M3).
  { rewrite K1, K2 in *. unfold fexp, emin. lia. }
  exists m3, e3. split; [exact E3 | exact B3].
Qed.

(** * One call of [loop] *)

Lemma loop_skip env st :
  elapsed env st < TRANSMISSION_INTERVAL \/ isConversionReady env = false ->
  loop env st = (st, None).
Proof.
  unfold loop, elapsed. intros [H|H].
  - apply Z.leb_gt in H. rewrite H. reflexivity.
  - rewrite H. destruct (_ <=? _); reflexivity.
Qed.

Lemma loop_emits env st st' r :
  loop env st = (st', Some r) ->
  TRANSMISSION_INTERVAL <= elapsed env st /\
  isConversionReady env = true /\
  st' = {| sessionStartTime := sessionStartTime st;
           sampleCount := ULong.incr (sampleCount st);
           baselineCurrent := baselineCurrent st;
           totalEnergy :=
             F32.add (totalEnergy st)
               (F32.mul (F32.mul (getBusVoltage env) (corrected (getCurrent_mA env)))
                        (deltaTime (elapsed env st)));
           lastTransmission := millis (clock env) |} /\
  r = {| timestamp := ULong.sub (millis (clock env)) (sessionStartTime st);
         voltage := getBusVoltage env;
         current := corrected (getCurrent_mA env);
         netCurrent := F32.sub (corrected (getCurrent_mA env)) (baselineCurrent st);
         power := F32.mul (getBusVoltage env) (corrected (getCurrent_mA env));
         cumulativeEnergy := totalEnergy st' |}.
Proof.
  unfold loop, elapsed.
  destruct (_ <=? _) eqn:G; [|discriminate].
  destruct (isConversionReady env); [|discriminate].
  intros H. inversion H; subst; clear H. apply Z.leb_le in G. auto.
Qed.

Lemma loop_keeps env st :
  baselineCurrent (fst (loop env st)) = baselineCurrent st /\
  sessionStartTime (fst (loop env st)) = sessionStartTime st.
Proof.
  destruct (loop env st) as [st' [r|]] eqn:E.
  - apply loop_emits in E. destruct E as (_ & _ & -> & _). auto.
  - unfold loop in E. destruct (_ <=? _); [destruct (isConversionReady env)|];
      inversion E; auto.
Qed.

Lemma loop_silent env st st' : loop env st = (st', None) -> st' = st.
Proof.
  unfold loop. destruct (_ <=? _); [destruct (isConversionReady env)|];
    intros H; inversion H; reflexivity.
Qed.

Lemma millis_diff c cl :
  0 <= c - cl < ULong.modulus -> ULong.sub (millis c) (millis cl) = c - cl.
Proof.
  intros H. unfold ULong.sub, millis, ULong.wrap.
  rewrite <- Zminus_mod. apply Z.mod_small. exact H.
Qed.

(** * Runs *)

Lemma run_cons env rest st :
  run (env :: rest) st =
  (fst (run rest (fst (loop env st))),
   match snd (loop env st) with
   | Some r => mkEmission env st r (fst (loop env st)) :: snd (run rest (fst (loop env st)))
   | None => snd (run rest (fst (loop env st)))
   end).
Proof.
  simpl. destruct (loop env st) as [st' out]. simpl.
  destruct (run rest st') as [st'' ems]. reflexivity.
Qed.

Lemma run_app a : forall b st,
  run (a ++ b) st
  = (fst (run b (fst (run a st))),
     snd (run a st) ++ snd (run b (fst (run a st)))).
Proof.
  induction a as [|env a IH]; intros b st.
  - cbn [app run fst snd]. destruct (run b st); reflexivity.
  - rewrite <- app_comm_cons, !run_cons, IH. cbn [fst snd].
    destruct (snd (loop env st)); reflexivity.
Qed.

Lemma run_keeps ticks : forall st,
  baselineCurrent (fst (run ticks st)) = baselineCurrent st /\
  sessionStartTime (fst (run ticks st)) = sessionStartTime st.
Proof.
  induction ticks as [|env rest IH]; intros st; [auto|].
  rewrite run_cons. cbn [fst].
  destruct (IH (fst (loop env st))) as [-> ->]. apply loop_keeps.
Qed.

(** Every data line comes from one call of [loop], made in the state the
    earlier calls left. *)
Lemma run_emission ticks : forall st e,
  In e (snd (run ticks st)) ->
  exists pre post,
    ticks = pre ++ em_input e :: post /\
    em_before e = fst (run pre st) /\
    loop (em_input e) (em_before e) = (em_after e, Some (em_record e)).
Proof.
  induction ticks as [|env rest IH]; intros st e H; [destruct H|].
  rewrite run_cons in H. cbn [snd] in H.
  assert (R : In e (snd (run rest (fst (loop env st)))) ->
              exists pre post,
                env :: rest = pre ++ em_input e :: post /\
                em_before e = fst (run pre st) /\
                loop (em_input e) (em_before e) = (em_after e, Some (em_record e))).
  { intros H'. destruct (IH _ _ H') as (pre & post & -> & B & L).
    exists (env :: pre), post. rewrite run_cons. cbn [fst]. auto. }
  destruct (snd (loop env st)) as [r|] eqn:O; [|auto].
  destruct H as [<-|H]; [|auto].
  exists [], rest. cbn [em_input em_before em_after em_record app run fst].
  repeat split. rewrite <- O. destruct (loop env st); reflexivity.
Qed.

Lemma run_last_transmission ticks : forall st,
  lastTransmission (fst (run ticks st)) = previous_transmission st (snd (run ticks st)).
Proof.
  unfold previous_transmission.
  induction ticks as [|env rest IH]; intros st; [reflexivity|].
  rewrite run_cons. cbn [fst snd]. rewrite IH.
  destruct (loop env st) as [st' [r|]] eqn:E; cbn [fst snd fold_left em_input].
  - apply loop_emits in E. destruct E as (_ & _ & -> & _). reflexivity.
  - apply loop_silent in E. subst. reflexivity.
Qed.

(** * [setup] *)

Lemma setup_returned fuel env out st :
  setup fuel env = (out, Returned st) ->
  ina_begin env = true /\
  measureBaseline (baseline_clock env) (baseline_polls env) = Some (baselineCurrent st) /\
  sessionStartTime st = millis (session_clock env) /\
  sampleCount st = 0 /\
  totalEnergy st = F32.zero /\
  lastTransmission st = 0.
Proof.
  unfold setup. destruct (ina_begin env); [|discriminate]. cbn [negb].
  destruct (measureBaseline _ _) as [b|]; [|discriminate].
  intros H. inversion H; subst; clear H.
  cbn [baselineCurrent sessionStartTime sampleCount totalEnergy lastTransmission].
  repeat split.
Qed.

(** * The claims *)

Lemma run_previous history st0 ems previous :
  snd (run history st0) = ems ++ [previous] ->
  lastTransmission (fst (run history st0)) = millis (clock (em_input previous)).
Proof.
  intros H. rewrite run_last_transmission, H. unfold previous_transmission.
  rewrite fold_left_app. reflexivity.
Qed.

(** C1, with what the code needs added: every call of [loop] that prints
    a data line less than 2^32 ms after the call that printed the line
    before adds [power * deltaTimeHours] to [totalEnergy], where
    [deltaTimeHours] is the time between the two calls in milliseconds,
    converted to [double], divided by 1000.0 and then by 3600.0, and
    stored in a [float]; the two divisors multiply to exactly 3 600 000;
    the line shows the new total and the call becomes the latest
    transmission. *)
Theorem energy_accumulation
    (history : list TickInput) (st0 : SessionState)
    (ems : list Emission) (previous : Emission)
    (env : TickInput) (st' : SessionState) (r : SampleRecord) :
  snd (run history st0) = ems ++ [previous] ->
  0 <= clock env - clock (em_input previous) < ULong.modulus ->
  loop env (fst (run history st0)) = (st', Some r) ->
  let now_minus_last := clock env - clock (em_input previous) in
  let deltaTimeHours :=
    F64.to_float
      (F64.div (F64.div (F64.of_ulong now_minus_last) (F64.const 1000))
               (F64.const 3600)) in
  totalEnergy st'
  = F32.add (totalEnergy (fst (run history st0))) (F32.mul (power r) deltaTimeHours) /\
  power r = F32.mul (getBusVoltage env)
                    (F32.mul (F32.abs (getCurrent_mA env)) CORRECTION_FACTOR) /\
  cumulativeEnergy r = totalEnergy st' /\
  lastTransmission st' = millis (clock env) /\
  SFmul F64.prec F64.emax (F64.const 1000) (F64.const 3600) = F64.const 3600000.
Proof.
  intros P G H now_minus_last deltaTimeHours.
  pose proof (run_previous _ _ _ _ P) as L.
  apply loop_emits in H. destruct H as (_ & _ & -> & ->).
  cbn [totalEnergy power cumulativeEnergy lastTransmission].
  unfold elapsed. rewrite L, millis_diff by exact G.
  split; [reflexivity|]. split; [reflexivity|]. split; [reflexivity|].
  split; [reflexivity|]. exact hour_in_millis.
Qed.

Lemma energy_accumulation_witness :
  let history := firstn 3 Sample.ticks in
  let previous := Sample.emission 0 history Sample.session in
  let env := Sample.tick 3 in
  let out := loop env (fst (run history Sample.session)) in
  clock (em_input previous) = 4050 /\ clock env = 4130 /\
  totalEnergy (fst out) =
    F32.add (totalEnergy (fst (run history Sample.session)))
      (F32.mul (power (Sample.printed out))
         (F64.to_float
            (F64.div (F64.div (F64.of_ulong 80) (F64.const 1000)) (F64.const 3600)))).
Proof.
  intros history previous env out.
  split; [vm_compute; reflexivity|]. split; [vm_compute; reflexivity|].
  apply (energy_accumulation history Sample.session [] previous env
           (fst out) (Sample.printed out)).
  - vm_compute. reflexivity.
  - vm_compute. split; [discriminate|reflexivity].
  - vm_compute. reflexivity.
Defined.

(** Across a full turn of the counter the rule as worded fails: a line
    printed at 4050 ms and the next 2^32 + 60 ms later are integrated
    over 60 ms, what is left of the time on the 32-bit counter. *)
Lemma energy_delta_wraps_with_the_counter : ~ energy_guarantee.
Proof.
  intros G.
  pose (history := [mkTick 4050 true (Sample.f 5 1) (Sample.f 100 1)]).
  pose (env := mkTick (4050 + 2 ^ 32 + 60) true (Sample.f 5 1) (Sample.f 100 1)).
  pose (out := loop env (fst (run history Sample.session))).
  specialize (G history Sample.session [] (Sample.emission 0 history Sample.session)
                env (fst out) (Sample.printed out)).
  assert (E : totalEnergy (fst out)
              = F32.add (totalEnergy (fst (run history Sample.session)))
                  (F32.mul (power (Sample.printed out))
                     (F64.to_float
                        (F64.div (F64.div (F64.of_ulong 60) (F64.const 1000))
                                 (F64.const 3600)))))
    by (vm_compute; reflexivity).
  rewrite E in G.
  assert (H : forall (P : Prop), (P -> False) -> P -> False) by auto.
  refine (H _ _ (G _ _ _)).
  - vm_compute. discriminate.
  - vm_compute. reflexivity.
  - vm_compute. discriminate.
  - vm_compute. reflexivity.
Qed.

(** C3: in every data line of a session, [netCurrent] is [current] minus
    the baseline that [measureBaseline] computed in [setup], and [current]
    is [abs(raw) * CORRECTION_FACTOR] for the reading of that call. *)
Theorem netCurrent_exact
    (fuel : nat) (senv : SetupInput) (out : list Output) (st0 : SessionState)
    (ticks : list TickInput) (e : Emission) :
  setup fuel senv = (out, Returned st0) ->
  In e (snd (run ticks st0)) ->
  measureBaseline (baseline_clock senv) (baseline_polls senv)
    = Some (baselineCurrent st0) /\
  current (em_record e) = F32.mul (F32.abs (getCurrent_mA (em_input e))) CORRECTION_FACTOR /\
  netCurrent (em_record e) = F32.sub (current (em_record e)) (baselineCurrent st0).
Proof.
  intros S H. apply setup_returned in S. destruct S as (_ & B & _).
  destruct (run_emission _ _ _ H) as (pre & post & _ & Eb & L).
  apply loop_emits in L. destruct L as (_ & _ & _ & ->).
  cbn [current netCurrent]. rewrite Eb.
  destruct (run_keeps pre st0) as [-> _]. auto.
Qed.

Lemma netCurrent_exact_witness :
  let e := Sample.emission 1 Sample.ticks Sample.session in
  em_input e = Sample.tick 3 /\
  netCurrent (em_record e)
  = F32.sub (current (em_record e)) (baselineCurrent Sample.session).
Proof.
  intros e. split; [vm_compute; reflexivity|].
  apply (netCurrent_exact 0 Sample.start (fst (setup 0 Sample.start))
           Sample.session Sample.ticks e).
  - vm_compute. reflexivity.
  - vm_compute. right. left. reflexivity.
Defined.

(** C4: in every data line, [power] is the bus voltage times [current],
    both of that call, with [current = abs(raw) * CORRECTION_FACTOR]. *)
Theorem power_exact (ticks : list TickInput) (st : SessionState) (e : Emission) :
  In e (snd (run ticks st)) ->
  voltage (em_record e) = getBusVoltage (em_input e) /\
  current (em_record e) = F32.mul (F32.abs (getCurrent_mA (em_input e))) CORRECTION_FACTOR /\
  power (em_record e) = F32.mul (voltage (em_record e)) (current (em_record e)).
Proof.
  intros H. destruct (run_emission _ _ _ H) as (pre & post & _ & _ & L).
  apply loop_emits in L. destruct L as (_ & _ & _ & ->). auto.
Qed.

Lemma power_exact_witness :
  let e := Sample.emission 0 Sample.ticks Sample.session in
  em_input e = Sample.tick 0 /\
  power (em_record e) = F32.mul (voltage (em_record e)) (current (em_record e)).
Proof.
  intros e. split; [vm_compute; reflexivity|].
  apply (power_exact Sample.ticks Sample.session e).
  vm_compute. left. reflexivity.
Defined.

(** C6: a call of [loop] made less than [TRANSMISSION_INTERVAL] after
    [lastTransmission] prints nothing and changes no global. *)
Theorem early_tick_is_noop (env : TickInput) (st : SessionState) :
  elapsed env st < TRANSMISSION_INTERVAL ->
  loop env st = (st, None) /\ run [env] st = (st, []).
Proof.
  intros H. assert (L : loop env st = (st, None)) by (apply loop_skip; auto).
  split; [exact L|]. simpl. rewrite L. reflexivity.
Qed.

Lemma early_tick_is_noop_witness :
  let st := fst (run (firstn 1 Sample.ticks) Sample.session) in
  elapsed (Sample.tick 1) st = 20 /\
  loop (Sample.tick 1) st = (st, None).
Proof.
  intros st. split; [vm_compute; reflexivity|].
  apply (early_tick_is_noop (Sample.tick 1) st). vm_compute. reflexivity.
Defined.

(** C7, with what the code needs added: a call of [loop] made after the
    interval, with the sensor not ready, prints nothing and changes no
    global, [lastTransmission] included; so the next call, if it is made
    less than 2^32 ms after the time [cl] at which [lastTransmission] was
    taken and the sensor is ready, prints.  No call changes
    [lastTransmission] without printing. *)
Theorem not_ready_tick_retries (env : TickInput) (st : SessionState) :
  TRANSMISSION_INTERVAL <= elapsed env st ->
  isConversionReady env = false ->
  loop env st = (st, None) /\
  (forall cl next,
     lastTransmission st = millis cl ->
     cl <= clock env ->
     clock env <= clock next < cl + ULong.modulus ->
     isConversionReady next = true ->
     exists st' r, loop next (fst (loop env st)) = (st', Some r) /\
                   lastTransmission st' = millis (clock next)) /\
  (forall env' st', lastTransmission (fst (loop env' st')) <> lastTransmission st' ->
                    snd (loop env' st') <> None).
Proof.
  intros G R. assert (L : loop env st = (st, None)) by (apply loop_skip; auto).
  split; [exact L|]. split.
  - intros cl next T C N Rn. rewrite L. cbn [fst]. unfold loop.
    assert (Gn : TRANSMISSION_INTERVAL <= elapsed next st).
    { unfold elapsed in *. rewrite T in *.
      rewrite millis_diff in G by lia. rewrite millis_diff by lia. lia. }
    unfold elapsed in Gn. apply Z.leb_le in Gn. rewrite Gn, Rn.
    eexists. eexists. split; reflexivity.
  - intros env' st' N Q. apply N.
    destruct (loop env' st') as [s o] eqn:E. cbn [snd] in Q. subst o.
    apply loop_silent in E. subst. reflexivity.
Qed.

Lemma not_ready_tick_retries_witness :
  let st := fst (run (firstn 2 Sample.ticks) Sample.session) in
  elapsed (Sample.tick 2) st = 50 /\
  loop (Sample.tick 2) st = (st, None) /\
  exists st' r,
    loop (Sample.tick 3) (fst (loop (Sample.tick 2) st)) = (st', Some r) /\
    lastTransmission st' = millis 4130.
Proof.
  intros st. split; [vm_compute; reflexivity|].
  destruct (not_ready_tick_retries (Sample.tick 2) st) as (L & N & _).
  - vm_compute. discriminate.
  - vm_compute. reflexivity.
  - split; [exact L|].
    apply (N 4050 (Sample.tick 3)).
    + vm_compute. reflexivity.
    + vm_compute. discriminate.
    + vm_compute. split; [discriminate|reflexivity].
    + vm_compute. reflexivity.
Defined.

(** The retry as worded fails when the sensor stalls for one turn of the
    32-bit clock: after the line printed at 4050 ms, a call 2^32 - 5 ms
    later finds the interval elapsed and the sensor not ready; the call
    made 10 ms after it, with the sensor ready, sees
    [currentMillis - lastTransmission = 5] and prints nothing. *)
Lemma retry_fails_after_rollover : ~ retry_guarantee.
Proof.
  intros G.
  apply (G (mkTick (4050 + 2 ^ 32 - 5) false (Sample.f 5 1) (Sample.f 100 1))
           (fst (run (firstn 1 Sample.ticks) Sample.session))
           (mkTick (4050 + 2 ^ 32 + 5) true (Sample.f 5 1) (Sample.f 100 1))).
  - vm_compute. discriminate.
  - reflexivity.
  - vm_compute. discriminate.
  - reflexivity.
  - vm_compute. reflexivity.
Qed.

(** * [measureBaseline] *)

Lemma Int_incr_small k : 0 <= k < Int.max -> Int.incr k = k + 1.
Proof.
  unfold Int.incr, Int.wrap, Int.max. intros H.
  rewrite Z.mod_small; lia.
Qed.

Lemma measureBaseline_loop_window start_clock last rest : forall inside sum k,
  forallb (in_window start_clock) inside = true ->
  in_window start_clock last = false ->
  0 <= k -> k + baseline_count inside <= Int.max ->
  measureBaseline_loop (millis start_clock) (inside ++ last :: rest) sum k
  = Some (fold_left (fun sum p => F32.add sum (corrected (poll_current p)))
                    (ready_polls inside) sum,
          k + baseline_count inside).
Proof.
  unfold baseline_count, in_window.
  induction inside as [|p inside IH]; intros sum k W L K0 K.
  - cbn [app measureBaseline_loop]. rewrite L. cbn. do 2 f_equal. lia.
  - cbn [forallb] in W. apply andb_true_iff in W. destruct W as [Wp W].
    cbn [app measureBaseline_loop]. rewrite Wp.
    unfold ready_polls in *. cbn [filter] in *.
    destruct (poll_ready p).
    + cbn [List.length fold_left] in *.
      rewrite Int_incr_small by lia. rewrite IH by (auto; lia).
      do 2 f_equal. lia.
    + apply IH; auto.
Qed.

(** C5: [measureBaseline] goes through every poll made inside the
    two-second window, adds [abs(raw) * CORRECTION_FACTOR] for each poll
    that found a sample ready, and stores the sum divided by their
    number; with no ready sample it stores 0, and [setup] goes on to
    [# DATA_START] either way. *)
Theorem baseline_is_mean
    (start_clock : Z) (inside : list Poll) (last : Poll) (rest : list Poll) :
  let ready := filter poll_ready inside in
  let samples := Z.of_nat (List.length ready) in
  let sum :=
    fold_left
      (fun sum p => F32.add sum (F32.mul (F32.abs (poll_current p)) CORRECTION_FACTOR))
      ready F32.zero in
  let baseline := if 0 <? samples then F32.div sum (F32.of_int samples) else F32.zero in
  forallb (fun p => ULong.sub (millis (poll_clock p)) (millis start_clock) <? 2000)
          inside = true ->
  (ULong.sub (millis (poll_clock last)) (millis start_clock) <? 2000) = false ->
  samples <= Int.max ->
  measureBaseline start_clock (inside ++ last :: rest) = Some baseline /\
  (samples = 0 -> baseline = F32.zero) /\
  (forall fuel senv,
     ina_begin senv = true ->
     baseline_clock senv = start_clock ->
     baseline_polls senv = inside ++ last :: rest ->
     exists out st,
       setup fuel senv = (out, Returned st) /\
       baselineCurrent st = baseline /\
       In (Println data_start) out).
Proof.
  intros ready samples sum baseline W L K.
  assert (M : measureBaseline start_clock (inside ++ last :: rest) = Some baseline).
  { unfold measureBaseline.
    rewrite (measureBaseline_loop_window start_clock last rest inside F32.zero 0 W L)
      by (unfold baseline_count, ready_polls; fold ready; fold samples; lia).
    reflexivity. }
  split; [exact M|]. split.
  - intros Z. unfold baseline. rewrite Z. reflexivity.
  - intros fuel senv B C P. unfold setup. rewrite B, C, P, M. cbn [negb].
    eexists. eexists. split; [reflexivity|]. split; [reflexivity|].
    apply in_or_app. right. apply in_or_app. right.
    cbn. do 6 right. left. reflexivity.
Qed.

Lemma baseline_is_mean_witness :
  let inside := firstn 3 (baseline_polls Sample.start) in
  let last := mkPoll 4000 false (Sample.f 0 1) in
  let sum :=
    fold_left
      (fun sum p => F32.add sum (F32.mul (F32.abs (poll_current p)) CORRECTION_FACTOR))
      (filter poll_ready inside) F32.zero in
  Z.of_nat (List.length (filter poll_ready inside)) = 2 /\
  measureBaseline 2000 (inside ++ [last]) = Some (F32.div sum (F32.of_int 2)).
Proof.
  intros inside last sum. split; [reflexivity|].
  apply (baseline_is_mean 2000 inside last []).
  - vm_compute. reflexivity.
  - vm_compute. reflexivity.
  - vm_compute. discriminate.
Defined.

(** The same with a sensor that is never ready: the baseline is 0. *)
Lemma baseline_without_samples :
  measureBaseline 2000 [mkPoll 2000 false F32.zero; mkPoll 3999 false F32.zero;
                        mkPoll 4000 false F32.zero]
  = Some F32.zero.
Proof. reflexivity. Qed.

(** * No sensor on the bus *)

Lemma halt_loop_quiet n :
  forall o, In o (halt_loop n) -> o = Println check_connections \/ o = Delay 5000.
Proof.
  induction n as [|n IH]; intros o H; [destruct H|].
  cbn [halt_loop] in H. destruct H as [<-|[<-|H]]; auto.
Qed.

Lemma halt_loop_next n :
  halt_loop (S n) = halt_loop n ++ [Println check_connections; Delay 5000].
Proof.
  induction n as [|n IH]; [reflexivity|].
  cbn [halt_loop app] in *. do 2 f_equal. exact IH.
Qed.

(** C9: when [INA.begin()] fails, [setup] never returns: after any
    number of iterations it is still in its [while(1)], having printed
    the banner, the error, and then one diagnostic line followed by a
    pause of 5000 ms per iteration; [# DATA_START] and data lines are
    never printed, whatever the later inputs. *)
Theorem no_sensor_halts (senv : SetupInput) :
  ina_begin senv = false ->
  forall (fuel : nat) (ticks : list TickInput),
    setup fuel senv
      = (banner ++ Println "# ERROR: INA226 not detected!" :: halt_loop fuel, Halted) /\
    firmware fuel senv ticks = fst (setup fuel senv) /\
    firmware (S fuel) senv ticks
      = firmware fuel senv ticks ++ [Println check_connections; Delay 5000] /\
    ~ In (Println data_start) (firmware fuel senv ticks) /\
    (forall r, ~ In (emit r) (firmware fuel senv ticks)).
Proof.
  intros B fuel ticks.
  assert (S : forall n, setup n senv
    = (banner ++ Println "# ERROR: INA226 not detected!" :: halt_loop n, Halted)).
  { intros n. unfold setup. rewrite B. reflexivity. }
  assert (F : forall n, firmware n senv ticks
    = banner ++ Println "# ERROR: INA226 not detected!" :: halt_loop n).
  { intros n. unfold firmware. rewrite S. reflexivity. }
  assert (Q : forall o, In o (firmware fuel senv ticks) ->
                        (forall s, o = Println s -> s <> data_start) /\
                        (forall r, o <> emit r)).
  { intros o H. rewrite F in H. apply in_app_or in H.
    assert (T : forall line, line <> data_start ->
                (forall s, Println line = Println s -> s <> data_start) /\
                (forall r, Println line <> emit r)).
    { intros line N. split; [intros s E; inversion E; subst; exact N|discriminate]. }
    destruct H as [H|[<-|H]].
    - cbn in H.
      destruct H as [<-|H]; [split; intros; discriminate|].
      repeat (destruct H as [<-|H]; [apply T; unfold data_start; discriminate|]).
      destruct H.
    - apply T. unfold data_start. discriminate.
    - apply halt_loop_quiet in H. destruct H as [->| ->].
      + apply T. unfold data_start, check_connections. discriminate.
      + split; intros; discriminate. }
  repeat split.
  - apply S.
  - rewrite S, F. reflexivity.
  - rewrite !F, halt_loop_next, app_comm_cons, app_assoc. reflexivity.
  - intros H. apply Q in H. destruct H as [H _]. exact (H _ eq_refl eq_refl).
  - intros r H. apply Q in H. destruct H as [_ H]. exact (H r eq_refl).
Qed.

Lemma no_sensor_halts_witness :
  snd (setup 3 Sample.no_sensor) = Halted /\
  firmware 3 Sample.no_sensor Sample.ticks
  = banner ++ Println "# ERROR: INA226 not detected!" :: halt_loop 3.
Proof.
  destruct (no_sensor_halts Sample.no_sensor eq_refl 3 Sample.ticks) as (S & F & _).
  split; [rewrite S; reflexivity | rewrite F, S; reflexivity].
Defined.

(** * The first data line *)

(** X15: after [setup], [lastTransmission] still holds its initial 0, so the
    first time step is counted from boot. *)
Lemma first_emission_from_boot fuel senv out st0 env st' r :
  setup fuel senv = (out, Returned st0) ->
  loop env st0 = (st', Some r) ->
  timestamp r = ULong.sub (millis (clock env)) (millis (session_clock senv)) /\
  cumulativeEnergy r
  = F32.add F32.zero (F32.mul (power r) (deltaTime (millis (clock env)))).
Proof.
  intros S L. apply setup_returned in S. destruct S as (_ & _ & S & _ & E & T).
  apply loop_emits in L. destruct L as (_ & _ & -> & ->).
  cbn [timestamp cumulativeEnergy power totalEnergy].
  unfold elapsed. rewrite S, E, T. split; [reflexivity|].
  do 3 f_equal. unfold ULong.sub, millis, ULong.wrap.
  rewrite Z.sub_0_r. apply Z.mod_mod. discriminate.
Qed.

(** C8 on the sample session, which starts at 4000 ms and prints its
    first line at 4050 ms: the line shows the energy of 4050 ms at the
    measured power, not that of the 50 ms since the session started. *)
Theorem first_sample_energy_counts_from_boot :
  let e := Sample.emission 0 Sample.ticks Sample.session in
  sessionStartTime Sample.session = 4000 /\
  clock (em_input e) = 4050 /\
  timestamp (em_record e) = 50 /\
  cumulativeEnergy (em_record e) = F32.mul (power (em_record e)) (deltaTime 4050) /\
  cumulativeEnergy (em_record e) <> F32.mul (power (em_record e)) (deltaTime 50).
Proof.
  vm_compute. repeat split. discriminate.
Qed.

(** * Net current *)

(** C10: when the corrected reading [abs(raw) * CORRECTION_FACTOR] is
    below the stored baseline, the data line carries a [netCurrent] that
    compares below zero, while [current] and [power] are still made from
    the absolute reading. *)
Theorem netCurrent_not_clamped
    (env : TickInput) (st st' : SessionState) (r : SampleRecord) :
  loop env st = (st', Some r) ->
  F32.valid (getCurrent_mA env) = true ->
  F32.valid (baselineCurrent st) = true ->
  F32.ltb (corrected (getCurrent_mA env)) (baselineCurrent st) = true ->
  F32.ltb (netCurrent r) F32.zero = true /\
  current r = F32.mul (F32.abs (getCurrent_mA env)) CORRECTION_FACTOR /\
  power r = F32.mul (getBusVoltage env)
                    (F32.mul (F32.abs (getCurrent_mA env)) CORRECTION_FACTOR).
Proof.
  intros L Vr Vb Lt. apply loop_emits in L. destruct L as (_ & _ & _ & ->).
  cbn [netCurrent current power]. split; [|auto].
  apply (SFsub_lt_negative _ _ F32_prec_pos); auto.
  apply corrected_valid. exact Vr.
Qed.

Lemma netCurrent_not_clamped_witness :
  let st := fst (run (firstn 3 Sample.ticks) Sample.session) in
  let out := loop (Sample.tick 3) st in
  F32.ltb (netCurrent (Sample.printed out)) F32.zero = true.
Proof.
  intros st out.
  apply (netCurrent_not_clamped (Sample.tick 3) st (fst out) (Sample.printed out)).
  - vm_compute. reflexivity.
  - vm_compute. reflexivity.
  - vm_compute. reflexivity.
  - vm_compute. reflexivity.
Defined.

(** * Energy never decreases *)

Lemma elapsed_range env st : 0 <= elapsed env st < ULong.modulus.
Proof. unfold elapsed, ULong.sub, ULong.wrap. apply Z.mod_pos_bound. reflexivity. Qed.

(** One data line: the total stays a proper non-negative [float] and
    does not go down. *)
Lemma loop_energy env st st' r :
  loop env st = (st', Some r) ->
  tick_wf env = true -> nonneg_power env = true ->
  F32.valid (totalEnergy st) = true -> nonneg (totalEnergy st) = true ->
  F32.valid (totalEnergy st') = true /\ nonneg (totalEnergy st') = true /\
  F32.leb (totalEnergy st) (totalEnergy st') = true /\
  cumulativeEnergy r = totalEnergy st'.
Proof.
  intros L W P V N. apply loop_emits in L. destruct L as (G & _ & -> & ->).
  cbn [totalEnergy cumulativeEnergy].
  unfold tick_wf in W. apply andb_true_iff in W. destruct W as [Wv Wc].
  unfold nonneg_power in P.
  pose proof (elapsed_range env st) as Er.
  destruct (deltaTime_finite (elapsed env st)) as (m & e & -> & B).
  { unfold TRANSMISSION_INTERVAL in G. lia. }
  set (pw := F32.mul (getBusVoltage env) (corrected (getCurrent_mA env))) in *.
  assert (Vp : F32.valid pw = true).
  { apply (SFmul_valid _ _ F32_prec_pos F32_prec_lt_emax); auto.
    apply corrected_valid. exact Wc. }
  assert (Vi : F32.valid (F32.mul pw (S754_finite false m e)) = true).
  { apply (SFmul_valid _ _ F32_prec_pos F32_prec_lt_emax); auto. }
  assert (Ni : nonneg (F32.mul pw (S754_finite false m e)) = true).
  { apply (SFmul_nonneg_finite _ _ F32_prec_pos F32_prec_lt_emax); auto. }
  destruct (SFadd_nonneg_le _ _ F32_prec_pos _ _ V Vi N Ni) as [Le Nn].
  repeat split; auto.
  apply (SFadd_valid _ _ F32_prec_pos); auto.
Qed.

Lemma run_energy ticks : forall st,
  forallb tick_wf ticks = true -> forallb nonneg_power ticks = true ->
  F32.valid (totalEnergy st) = true -> nonneg (totalEnergy st) = true ->
  Sorted energy_follows (snd (run ticks st)) /\
  (forall e0, cumulativeEnergy (em_record e0) = totalEnergy st ->
              HdRel energy_follows e0 (snd (run ticks st))).
Proof.
  induction ticks as [|env rest IH]; intros st W P V N.
  - split; [constructor|intros; constructor].
  - cbn [forallb] in W, P. apply andb_true_iff in W, P.
    destruct W as [We W], P as [Pe P].
    rewrite run_cons. cbn [snd].
    destruct (loop env st) as [st' [r|]] eqn:L; cbn [fst snd].
    + destruct (loop_energy _ _ _ _ L We Pe V N) as (V' & N' & Le & C).
      destruct (IH st' W P V' N') as [S H].
      split.
      * constructor; [exact S|]. apply H. exact C.
      * intros e0 E0. constructor. unfold energy_follows.
        cbn [em_record]. rewrite E0, C. exact Le.
    + apply loop_silent in L. subst st'. apply IH; auto.
Qed.

(** * Time stamps and sample counts within one turn of the counter *)

Lemma loop_time c0 prev env st st' r :
  session_inv c0 prev st ->
  prev <= clock env < c0 + ULong.modulus ->
  loop env st = (st', Some r) ->
  session_inv c0 (clock env) st' /\
  timestamp r = clock env - c0 /\
  sampleCount st' = sampleCount st + 1 /\
  lastTransmission st' = millis (clock env) /\
  (forall cl, lastTransmission st = millis cl -> c0 <= cl <= prev ->
              cl + TRANSMISSION_INTERVAL <= clock env).
Proof.
  intros [Is Ip Ic Il] Hc L. apply loop_emits in L. destruct L as (G & _ & -> & ->).
  cbn [timestamp sampleCount lastTransmission sessionStartTime].
  assert (Gate : forall cl, lastTransmission st = millis cl -> c0 <= cl <= prev ->
                            cl + TRANSMISSION_INTERVAL <= clock env).
  { intros cl E Hcl. unfold elapsed in G. rewrite E, millis_diff in G; lia. }
  assert (Count : ULong.incr (sampleCount st) = sampleCount st + 1).
  { unfold ULong.incr, ULong.wrap. apply Z.mod_small.
    destruct (Z.eq_dec (sampleCount st) 0) as [Zc|Zc].
    - rewrite Zc. change ULong.modulus with 4294967296. lia.
    - destruct (Il ltac:(lia)) as (cl & _ & Hcl & B).
      unfold TRANSMISSION_INTERVAL in B.
      change ULong.modulus with 4294967296 in *. lia. }
  split; [|split; [|split; [|split]]].
  - split; cbn [sessionStartTime sampleCount lastTransmission].
    + exact Is.
    + lia.
    + rewrite Count. lia.
    + intros _. exists (clock env). rewrite Count.
      split; [reflexivity|]. split; [lia|].
      destruct (Z.eq_dec (sampleCount st) 0) as [Zc|Zc].
      * rewrite Zc. unfold TRANSMISSION_INTERVAL. lia.
      * destruct (Il ltac:(lia)) as (cl & E & Hcl & B).
        specialize (Gate cl E Hcl). unfold TRANSMISSION_INTERVAL in *. lia.
  - rewrite Is. apply millis_diff. lia.
  - exact Count.
  - reflexivity.
  - exact Gate.
Qed.

Lemma session_inv_later c0 prev prev' st :
  session_inv c0 prev st -> prev <= prev' < c0 + ULong.modulus ->
  session_inv c0 prev' st.
Proof.
  intros [Is Ip Ic Il] H. split; auto; [lia|].
  intros P. destruct (Il P) as (cl & E & Hcl & B). exists cl. repeat split; auto; lia.
Qed.

Lemma run_time c0 ticks : forall prev st,
  session_inv c0 prev st ->
  clocks_monotone prev ticks = true ->
  clocks_before (c0 + ULong.modulus) ticks = true ->
  Sorted follows (snd (run ticks st)) /\
  (forall e0, latest c0 prev st e0 -> HdRel follows e0 (snd (run ticks st))).
Proof.
  induction ticks as [|env rest IH]; intros prev st I M B.
  - split; [constructor|intros; constructor].
  - cbn [clocks_monotone] in M. unfold clocks_before in B. cbn [forallb] in B.
    apply andb_true_iff in M, B. destruct M as [Mp M], B as [Bp B].
    apply Z.leb_le in Mp. apply Z.ltb_lt in Bp.
    rewrite run_cons. cbn [snd].
    destruct (loop env st) as [st' [r|]] eqn:L; cbn [fst snd].
    + destruct (loop_time c0 prev env st st' r I ltac:(lia) L)
        as (I' & T & C & Lt & Gate).
      destruct (IH (clock env) st' I' M B) as [S H].
      split.
      * constructor; [exact S|]. apply H.
        exists (clock env). cbn [em_record em_after].
        destruct I' as [_ Ip' Ic' _]. destruct I as [_ _ Ic _].
        repeat split; auto; lia.
      * intros e0 (cl & T0 & E0 & Hcl & P0 & C0). constructor.
        unfold follows. cbn [em_record em_after].
        specialize (Gate cl E0 Hcl). unfold TRANSMISSION_INTERVAL in *.
        rewrite T0, T, C0, C. lia.
    + apply loop_silent in L. subst st'.
      destruct (IH (clock env) st (session_inv_later c0 prev (clock env) st I ltac:(lia)) M B)
        as [S H].
      split; [exact S|].
      intros e0 (cl & T0 & E0 & Hcl & P0 & C0). apply H.
      exists cl. repeat split; auto; lia.
Qed.

Lemma Sorted_weaken {A} (R S : A -> A -> Prop) (l : list A) :
  (forall a b, R a b -> S a b) -> Sorted R l -> Sorted S l.
Proof.
  intros W H. induction H as [|a l H IH Hd]; constructor; auto.
  destruct Hd; constructor; auto.
Qed.

Lemma Sorted_last_two {A} (R : A -> A -> Prop) (a b : A) (l : list A) :
  Sorted R (l ++ [a; b]) -> R a b.
Proof.
  induction l as [|x l IH]; intros H; inversion H as [|? ? Hs Hd]; subst.
  - inversion Hd; subst. assumption.
  - apply IH. exact Hs.
Qed.

(** The counter of lines, as long as fewer than 2^32 were printed. *)
Lemma run_count_sorted ticks : forall st,
  0 <= sampleCount st ->
  sampleCount st + Z.of_nat (List.length (snd (run ticks st))) < ULong.modulus ->
  Sorted count_follows (snd (run ticks st)) /\
  (forall e0, sampleCount (em_after e0) = sampleCount st ->
              HdRel count_follows e0 (snd (run ticks st))).
Proof.
  induction ticks as [|env rest IH]; intros st P B.
  - split; [constructor|intros; constructor].
  - rewrite run_cons in *. cbn [snd] in *.
    destruct (loop env st) as [st' [r|]] eqn:L; cbn [fst snd] in *.
    + apply loop_emits in L. destruct L as (_ & _ & Est & _).
      cbn [List.length] in B.
      assert (C : sampleCount st' = sampleCount st + 1).
      { rewrite Est. cbn [sampleCount]. unfold ULong.incr, ULong.wrap.
        apply Z.mod_small. lia. }
      destruct (IH st') as [S H]; [lia|lia|].
      split.
      * constructor; [exact S|]. apply H. reflexivity.
      * intros e0 E0. constructor. unfold count_follows. cbn [em_after]. lia.
    + apply loop_silent in L. subst st'. apply IH; assumption.
Qed.

(** C2, with what the code needs added: in a session whose calls are
    made in clock order and less than 2^32 ms after its start, each data
    line carries a time stamp at least [TRANSMISSION_INTERVAL] above that
    of the line before; in any session with fewer than 2^32 data lines,
    the sample count never goes back from a line to the next; in any
    session at all, if the sensor returns proper [float]s and no computed
    power is negative, the cumulative energy of a line is never below
    that of the line before. *)
Theorem ordering_within_one_turn
    (fuel : nat) (senv : SetupInput) (out : list Output) (st0 : SessionState)
    (ticks : list TickInput) :
  setup fuel senv = (out, Returned st0) ->
  (clocks_monotone (session_clock senv) ticks = true ->
   clocks_before (session_clock senv + ULong.modulus) ticks = true ->
   Sorted time_follows (snd (run ticks st0))) /\
  (Z.of_nat (List.length (snd (run ticks st0))) < ULong.modulus ->
   Sorted count_follows (snd (run ticks st0))) /\
  (forallb tick_wf ticks = true ->
   forallb nonneg_power ticks = true ->
   Sorted energy_follows (snd (run ticks st0))).
Proof.
  intros S. apply setup_returned in S. destruct S as (_ & _ & Ss & Sc & Se & Sl).
  split; [|split].
  - intros M B.
    apply (Sorted_weaken follows).
    { intros a b (F1 & F2 & _). split; assumption. }
    apply (run_time (session_clock senv) ticks (session_clock senv) st0); auto.
    split; auto.
    + change ULong.modulus with 4294967296. lia.
    + lia.
    + lia.
  - intros B. apply run_count_sorted; rewrite Sc; [lia|exact B].
  - intros W P. apply run_energy; auto; rewrite Se; reflexivity.
Qed.

Lemma ordering_within_one_turn_witness :
  Sorted time_follows (snd (run Sample.ticks Sample.session)) /\
  Sorted count_follows (snd (run Sample.ticks Sample.session)) /\
  Sorted energy_follows (snd (run Sample.ticks Sample.session)).
Proof.
  destruct (ordering_within_one_turn 0 Sample.start (fst (setup 0 Sample.start))
              Sample.session Sample.ticks) as (T & C & E).
  - vm_compute. reflexivity.
  - split; [|split].
    + apply T; vm_compute; reflexivity.
    + apply C. vm_compute. reflexivity.
    + apply E; vm_compute; reflexivity.
Defined.

Lemma loop_fires env st :
  TRANSMISSION_INTERVAL <= elapsed env st -> isConversionReady env = true ->
  exists st' r, loop env st = (st', Some r).
Proof.
  intros G R. unfold loop. unfold elapsed in G. apply Z.leb_le in G.
  rewrite G, R. eexists. eexists. reflexivity.
Qed.

Lemma gate_after_50 c : ULong.sub (millis (c + 50)) (millis c) = 50.
Proof.
  rewrite millis_diff; [lia|]. change ULong.modulus with 4294967296. lia.
Qed.

Lemma steady_app n : forall c m,
  steady c (n + m) = steady c n ++ steady (c + 50 * Z.of_nat n) m.
Proof.
  induction n as [|n IH]; intros c m.
  - cbn [Nat.add steady app Z.of_nat]. f_equal. lia.
  - change (S n + m)%nat with (S (n + m)). cbn [steady app]. rewrite IH.
    do 3 f_equal. lia.
Qed.

Lemma steady_monotone n : forall c prev,
  prev <= c + 50 -> clocks_monotone prev (steady c n) = true.
Proof.
  induction n as [|n IH]; intros c prev H; [reflexivity|].
  cbn [steady clocks_monotone clock]. rewrite IH by lia.
  apply andb_true_iff. split; [apply Z.leb_le; exact H|reflexivity].
Qed.

(** [n] such calls print [n] lines. *)
Lemma steady_run n : forall c st,
  TRANSMISSION_INTERVAL <= ULong.sub (millis (c + 50)) (lastTransmission st) ->
  List.length (snd (run (steady c n) st)) = n /\
  ((0 < n)%nat ->
   lastTransmission (fst (run (steady c n) st)) = millis (c + 50 * Z.of_nat n)).
Proof.
  induction n as [|n IH]; intros c st G.
  - split; [reflexivity|intros H; inversion H].
  - cbn [steady]. rewrite run_cons.
    destruct (loop_fires (mkTick (c + 50) true F32.zero F32.zero) st G eq_refl)
      as (st' & r & L).
    rewrite L. cbn [fst snd List.length].
    assert (T : lastTransmission st' = millis (c + 50)).
    { apply loop_emits in L. destruct L as (_ & _ & -> & _). reflexivity. }
    destruct (IH (c + 50) st') as [Len Last].
    { rewrite T, gate_after_50. unfold TRANSMISSION_INTERVAL. lia. }
    split; [rewrite Len; reflexivity|]. intros _.
    destruct n as [|n].
    + cbn [steady run fst]. rewrite T. f_equal; lia.
    + rewrite Last by lia. f_equal; lia.
Qed.

Lemma run_count_wrap ticks : forall st,
  sampleCount st = ULong.wrap (sampleCount st) ->
  sampleCount (fst (run ticks st))
  = ULong.wrap (sampleCount st + Z.of_nat (List.length (snd (run ticks st)))).
Proof.
  induction ticks as [|env rest IH]; intros st R.
  - cbn [run fst snd List.length Z.of_nat]. rewrite Z.add_0_r. exact R.
  - rewrite run_cons. cbn [fst snd].
    destruct (loop env st) as [st' [r|]] eqn:L; cbn [fst snd].
    + apply loop_emits in L. destruct L as (_ & _ & -> & _).
      rewrite IH; cbn [sampleCount]; unfold ULong.incr, ULong.wrap.
      * rewrite Zplus_mod_idemp_l. cbn [List.length]. f_equal. lia.
      * rewrite Z.mod_mod; [reflexivity|discriminate].
    + apply loop_silent in L. subst st'. apply IH. exact R.
Qed.

(** After 2^32 - 2 lines the next two carry the counts 2^32 - 1 and 0. *)
Lemma count_wraps (n : nat) :
  Z.of_nat n = ULong.modulus - 2 ->
  ~ Sorted count_follows (snd (run (steady 4000 (n + 2)) Sample.session)).
Proof.
  intros N H. rewrite steady_app, run_app in H. cbn [snd] in H.
  assert (S0 : sampleCount Sample.session = 0) by (vm_compute; reflexivity).
  assert (L0 : lastTransmission Sample.session = 0) by (vm_compute; reflexivity).
  assert (Pn : (0 < n)%nat).
  { change ULong.modulus with 4294967296 in N. lia. }
  destruct (steady_run n 4000 Sample.session) as [Len Last].
  { rewrite L0. vm_compute. discriminate. }
  specialize (Last Pn).
  pose proof (run_count_wrap (steady 4000 n) Sample.session) as C.
  rewrite S0, Len, N in C. specialize (C eq_refl).
  set (stA := fst (run (steady 4000 n) Sample.session)) in *.
  set (c := 4000 + 50 * Z.of_nat n) in *.
  cbn [steady] in H. rewrite !run_cons in H.
  destruct (loop_fires (mkTick (c + 50) true F32.zero F32.zero) stA) as (st1 & r1 & L1).
  { unfold elapsed. cbn [clock]. rewrite Last, gate_after_50.
    unfold TRANSMISSION_INTERVAL. lia. }
  { reflexivity. }
  rewrite L1 in H. cbn [fst snd] in H.
  assert (T1 : lastTransmission st1 = millis (c + 50) /\
               sampleCount st1 = ULong.incr (sampleCount stA)).
  { apply loop_emits in L1. destruct L1 as (_ & _ & -> & _). split; reflexivity. }
  destruct T1 as [T1 C1].
  destruct (loop_fires (mkTick (c + 50 + 50) true F32.zero F32.zero) st1) as (st2 & r2 & L2).
  { unfold elapsed. cbn [clock]. rewrite T1, gate_after_50.
    unfold TRANSMISSION_INTERVAL. lia. }
  { reflexivity. }
  rewrite L2 in H. cbn [fst snd run] in H.
  assert (C2 : sampleCount st2 = ULong.incr (sampleCount st1)).
  { apply loop_emits in L2. destruct L2 as (_ & _ & -> & _). reflexivity. }
  apply Sorted_last_two in H. unfold count_follows in H. cbn [em_after] in H.
  rewrite C2, C1, C in H.
  change (ULong.incr (ULong.incr (ULong.wrap (0 + (ULong.modulus - 2))))) with 0 in H.
  change (ULong.incr (ULong.wrap (0 + (ULong.modulus - 2)))) with 4294967295 in H.
  lia.
Qed.

(** The guarantee as worded fails in long sessions.  Time stamps: a
    session started at 4000 ms prints a line at 4050 ms and, the sensor
    having stalled, the next one 2^32 - 10 ms later, with the time stamps
    50 and 40.  Sample count: a session that prints a line every 50 ms
    shows the count 2^32 - 1 in line 2^32 - 1 and the count 0 in the
    next. *)
Lemma ordering_fails_after_rollover : ~ time_guarantee /\ ~ count_guarantee.
Proof.
  split.
  - intros G.
    pose (late := [mkTick 4050 true (Sample.f 5 1) (Sample.f 100 1);
                   mkTick (4050 + 2 ^ 32 - 10) true (Sample.f 5 1) (Sample.f 100 1)]).
    specialize (G 0%nat Sample.start (fst (setup 0 Sample.start)) Sample.session late
                  eq_refl eq_refl).
    assert (E : map (fun e => timestamp (em_record e)) (snd (run late Sample.session))
                = [50; 40]) by (vm_compute; reflexivity).
    destruct (snd (run late Sample.session)) as [|e1 [|e2 [|e3 l]]]; try discriminate.
    inversion E as [[E1 E2]].
    inversion G as [|? ? _ H]; subst. inversion H as [|? ? F]; subst.
    destruct F as (F & _). unfold TRANSMISSION_INTERVAL in F. lia.
  - intros G.
    assert (N : Z.of_nat (Z.to_nat (ULong.modulus - 2)) = ULong.modulus - 2).
    { apply Z2Nat.id. discriminate. }
    apply (count_wraps _ N).
    apply (G 0%nat Sample.start (fst (setup 0 Sample.start)) Sample.session).
    + reflexivity.
    + apply (steady_monotone _ 4000 4000). lia.
Qed.

(** * Further properties of [loop] *)

(** X1: no call of [loop] writes [baselineCurrent] or [sessionStartTime]:
    after any number of calls both are what [setup] left. *)
Theorem loop_never_recalibrates (ticks : list TickInput) (st : SessionState) :
  baselineCurrent (fst (run ticks st)) = baselineCurrent st /\
  sessionStartTime (fst (run ticks st)) = sessionStartTime st /\
  Forall (fun e => baselineCurrent (em_after e) = baselineCurrent st /\
                   sessionStartTime (em_after e) = sessionStartTime st)
         (snd (run ticks st)).
Proof.
  destruct (run_keeps ticks st) as [B S]. repeat split; auto.
  apply Forall_forall. intros e H.
  destruct (run_emission _ _ _ H) as (pre & post & _ & Eb & L).
  pose proof (loop_keeps (em_input e) (em_before e)) as K.
  rewrite L in K. cbn [fst] in K. rewrite Eb in K.
  destruct (run_keeps pre st) as [B' S']. destruct K as [K1 K2].
  rewrite K1, K2. auto.
Qed.

(** X2: the sample counter counts the data lines: after [setup] and any calls
    of [loop], [sampleCount] is the number of lines printed, modulo 2^32. *)
Theorem sampleCount_counts_lines
    (fuel : nat) (senv : SetupInput) (out : list Output) (st0 : SessionState)
    (ticks : list TickInput) :
  setup fuel senv = (out, Returned st0) ->
  sampleCount (fst (run ticks st0))
  = ULong.wrap (Z.of_nat (List.length (snd (run ticks st0)))).
Proof.
  intros S. apply setup_returned in S. destruct S as (_ & _ & _ & Sc & _).
  assert (G : forall ticks st,
    ULong.wrap (sampleCount (fst (run ticks st)))
    = ULong.wrap (sampleCount st + Z.of_nat (List.length (snd (run ticks st)))) /\
    (sampleCount st = ULong.wrap (sampleCount st) ->
     sampleCount (fst (run ticks st)) = ULong.wrap (sampleCount (fst (run ticks st))))).
  { clear. induction ticks as [|env rest IH]; intros st.
    - cbn [run fst snd List.length]. rewrite Z.add_0_r. auto.
    - rewrite run_cons. cbn [fst snd].
      destruct (loop env st) as [st' [r|]] eqn:L; cbn [fst snd].
      + destruct (IH st') as [E R]. apply loop_emits in L.
        destruct L as (_ & _ & -> & _). cbn [sampleCount] in *.
        split.
        * rewrite E. cbn [List.length]. unfold ULong.incr, ULong.wrap.
          rewrite Zplus_mod_idemp_l. f_equal. lia.
        * intros _. apply R. unfold ULong.incr, ULong.wrap.
          rewrite Z.mod_mod; [reflexivity|discriminate].
      + apply loop_silent in L. subst st'. apply IH. }
  destruct (G ticks st0) as [E R]. rewrite R, E, Sc; [reflexivity|].
  rewrite Sc. reflexivity.
Qed.

Lemma sampleCount_counts_lines_witness :
  sampleCount (fst (run Sample.ticks Sample.session)) = 3.
Proof.
  apply (sampleCount_counts_lines 0 Sample.start (fst (setup 0 Sample.start))
           Sample.session Sample.ticks).
  vm_compute. reflexivity.
Defined.

(** X3: every time stamp is the true time since [setup] stored
    [sessionStartTime], modulo 2^32: exactly that time while it is below
    2^32 ms, whatever the order or spacing of the calls. *)
Theorem timestamp_is_session_time
    (fuel : nat) (senv : SetupInput) (out : list Output) (st0 : SessionState)
    (ticks : list TickInput) (e : Emission) :
  setup fuel senv = (out, Returned st0) ->
  In e (snd (run ticks st0)) ->
  timestamp (em_record e) = ULong.wrap (clock (em_input e) - session_clock senv) /\
  0 <= timestamp (em_record e) < ULong.modulus /\
  (0 <= clock (em_input e) - session_clock senv < ULong.modulus ->
   timestamp (em_record e) = clock (em_input e) - session_clock senv).
Proof.
  intros S H. apply setup_returned in S. destruct S as (_ & _ & Ss & _).
  destruct (run_emission _ _ _ H) as (pre & post & _ & Eb & L).
  apply loop_emits in L. destruct L as (_ & _ & _ & ->). cbn [timestamp].
  rewrite Eb. destruct (run_keeps pre st0) as [_ ->]. rewrite Ss.
  assert (E : ULong.sub (millis (clock (em_input e))) (millis (session_clock senv))
              = ULong.wrap (clock (em_input e) - session_clock senv)).
  { unfold ULong.sub, millis, ULong.wrap. rewrite <- Zminus_mod. reflexivity. }
  rewrite E. split; [reflexivity|]. split.
  - apply Z.mod_pos_bound. reflexivity.
  - intros R. apply Z.mod_small. exact R.
Qed.

Lemma timestamp_is_session_time_witness :
  let e := Sample.emission 2 Sample.ticks Sample.session in
  clock (em_input e) = 4180 /\ timestamp (em_record e) = 180.
Proof.
  intros e. split; [vm_compute; reflexivity|].
  destruct (timestamp_is_session_time 0 Sample.start (fst (setup 0 Sample.start))
              Sample.session Sample.ticks e) as (_ & _ & T).
  - vm_compute. reflexivity.
  - vm_compute. do 2 right. left. reflexivity.
  - apply T. vm_compute. split; [discriminate|reflexivity].
Defined.

Lemma run_spaced ticks : forall st,
  Sorted spaced (snd (run ticks st)) /\
  (forall e0, lastTransmission st = millis (clock (em_input e0)) ->
              HdRel spaced e0 (snd (run ticks st))).
Proof.
  induction ticks as [|env rest IH]; intros st.
  - split; [constructor|intros; constructor].
  - rewrite run_cons. cbn [snd].
    destruct (loop env st) as [st' [r|]] eqn:L; cbn [fst snd].
    + destruct (IH st') as [S H]. apply loop_emits in L.
      destruct L as (G & _ & Est & _).
      split.
      * constructor; [exact S|]. apply H. rewrite Est. reflexivity.
      * intros e0 E0. constructor. unfold spaced. cbn [em_input].
        unfold elapsed in G. rewrite E0 in G. split; [exact G|].
        intros R. rewrite millis_diff in G; assumption.
    + apply loop_silent in L. subst st'. apply IH.
Qed.

(** X4: the rate limit holds across the wrap of the counter: in any run,
    from any globals, a data line and the next are at least 50 ms apart on
    the 32-bit counter, and at least 50 ms apart in true time whenever
    the two calls are less than 2^32 ms apart. *)
Theorem rate_limit_survives_rollover (ticks : list TickInput) (st : SessionState) :
  Sorted spaced (snd (run ticks st)) /\
  (forall e, hd_error (snd (run ticks st)) = Some e ->
             TRANSMISSION_INTERVAL
             <= ULong.sub (millis (clock (em_input e))) (lastTransmission st)).
Proof.
  split; [apply run_spaced|].
  intros e H.
  assert (I : In e (snd (run ticks st))).
  { destruct (snd (run ticks st)); inversion H; subst. left. reflexivity. }
  revert st e H I. induction ticks as [|env rest IH]; intros st e H I; [destruct I|].
  rewrite run_cons in H. cbn [snd] in H.
  destruct (loop env st) as [st' [r|]] eqn:L; cbn [fst snd] in H.
  - inversion H; subst. cbn [em_input]. apply loop_emits in L.
    destruct L as (G & _). exact G.
  - apply loop_silent in L. subst st'. apply (IH st e H).
    destruct (snd (run rest st)); inversion H; subst. left. reflexivity.
Qed.

(** X5: calls that [loop] lets pass leave no trace: after any number of calls
    made too early or with the sensor not ready, the first call made
    after the interval with the sensor ready prints exactly one line,
    computed from the very globals the run started with. *)
Theorem skipped_calls_then_one_line
    (st : SessionState) (waits : list TickInput) (env : TickInput) :
  forallb (skips st) waits = true ->
  skips st env = false ->
  fst (run waits st) = st /\ snd (run waits st) = [] /\
  exists r st',
    loop env st = (st', Some r) /\
    run (waits ++ [env]) st = (st', [mkEmission env st r st']) /\
    lastTransmission st' = millis (clock env) /\
    timestamp r = ULong.sub (millis (clock env)) (sessionStartTime st).
Proof.
  intros W E.
  assert (R : run waits st = (st, [])).
  { induction waits as [|w waits IH]; [reflexivity|].
    cbn [forallb] in W. apply andb_true_iff in W. destruct W as [Ww W].
    rewrite run_cons. rewrite (loop_skip w st).
    - cbn [fst snd]. rewrite (IH W). reflexivity.
    - unfold skips in Ww. apply orb_true_iff in Ww. destruct Ww as [Ww|Ww].
      + left. apply Z.ltb_lt. exact Ww.
      + right. destruct (isConversionReady w); [discriminate|reflexivity]. }
  rewrite R. split; [reflexivity|]. split; [reflexivity|].
  unfold skips in E. apply orb_false_iff in E. destruct E as [E1 E2].
  apply Z.ltb_ge in E1. apply negb_false_iff in E2.
  destruct (loop env st) as [st' [r|]] eqn:L.
  - exists r, st'. split; [reflexivity|]. split.
    + rewrite run_app, R. cbn [fst snd app run]. rewrite L. reflexivity.
    + apply loop_emits in L. destruct L as (_ & _ & -> & ->). split; reflexivity.
  - exfalso. unfold loop, elapsed in *. apply Z.leb_le in E1.
    rewrite E1, E2 in L. discriminate.
Qed.

Lemma skipped_calls_then_one_line_witness :
  let st := fst (run (firstn 1 Sample.ticks) Sample.session) in
  let waits := [Sample.tick 1; Sample.tick 2] in
  exists r st',
    run (waits ++ [Sample.tick 3]) st = (st', [mkEmission (Sample.tick 3) st r st']) /\
    timestamp r = 130.
Proof.
  intros st waits.
  destruct (skipped_calls_then_one_line st waits (Sample.tick 3))
    as (_ & _ & r & st' & L & R & _ & T).
  - vm_compute. reflexivity.
  - vm_compute. reflexivity.
  - exists r, st'. split; [exact R|]. rewrite T. vm_compute. reflexivity.
Defined.

(** X6: the time step of a data line is never zero, negative, infinite or a
    NaN: the [unsigned long] difference it is made from lies between 50
    and 2^32 - 1, and [deltaTime] of it is a positive finite [float]. *)
Theorem time_step_is_positive
    (ticks : list TickInput) (st : SessionState) (e : Emission) :
  In e (snd (run ticks st)) ->
  TRANSMISSION_INTERVAL <= elapsed (em_input e) (em_before e) < ULong.modulus /\
  exists m ex,
    deltaTime (elapsed (em_input e) (em_before e)) = S754_finite false m ex /\
    bounded F32.prec F32.emax m ex = true.
Proof.
  intros H. destruct (run_emission _ _ _ H) as (pre & post & _ & _ & L).
  apply loop_emits in L. destruct L as (G & _).
  pose proof (elapsed_range (em_input e) (em_before e)) as R.
  split; [lia|]. apply deltaTime_finite. unfold TRANSMISSION_INTERVAL in G. lia.
Qed.

Lemma time_step_is_positive_witness :
  let e := Sample.emission 1 Sample.ticks Sample.session in
  elapsed (em_input e) (em_before e) = 80 /\
  exists m ex, deltaTime 80 = S754_finite false m ex /\
               bounded F32.prec F32.emax m ex = true.
Proof.
  intros e. split; [vm_compute; reflexivity|].
  apply (time_step_is_positive Sample.ticks Sample.session e).
  vm_compute. right. left. reflexivity.
Defined.

Lemma last_cons_default {A} (a d : A) (l : list A) : last (a :: l) d = last l a.
Proof.
  revert a d. induction l as [|b l IH]; intros a d; [reflexivity|].
  change (last (a :: b :: l) d) with (last (b :: l) d). rewrite !IH.
  reflexivity.
Qed.

Lemma run_inv c0 ticks : forall prev st,
  session_inv c0 prev st ->
  clocks_monotone prev ticks = true ->
  clocks_before (c0 + ULong.modulus) ticks = true ->
  session_inv c0 (last_clock prev ticks) (fst (run ticks st)) /\
  sampleCount (fst (run ticks st))
  = sampleCount st + Z.of_nat (List.length (snd (run ticks st))).
Proof.
  unfold last_clock.
  induction ticks as [|env rest IH]; intros prev st I M B.
  - cbn. split; [exact I|lia].
  - cbn [clocks_monotone] in M. unfold clocks_before in B. cbn [forallb] in B.
    apply andb_true_iff in M, B. destruct M as [Mp M], B as [Bp B].
    apply Z.leb_le in Mp. apply Z.ltb_lt in Bp.
    cbn [map]. rewrite last_cons_default, run_cons. cbn [fst snd].
    destruct (loop env st) as [st' [r|]] eqn:L; cbn [fst snd].
    + destruct (loop_time c0 prev env st st' r I ltac:(lia) L) as (I' & _ & C & _).
      destruct (IH (clock env) st' I' M B) as [J N].
      split; [exact J|]. rewrite N, C. cbn [List.length]. lia.
    + apply loop_silent in L. subst st'.
      apply (IH (clock env) st (session_inv_later c0 prev (clock env) st I ltac:(lia)) M B).
Qed.

(** X7: at most one line per interval: in a session whose calls are made in
    order and less than 2^32 ms after its start, [sampleCount] is exactly
    the number [n] of lines printed, and [n] lines take at least
    [50 * (n - 1)] ms of the time between the session start and the
    latest call. *)
Theorem at_most_one_line_per_interval
    (fuel : nat) (senv : SetupInput) (out : list Output) (st0 : SessionState)
    (ticks : list TickInput) :
  setup fuel senv = (out, Returned st0) ->
  clocks_monotone (session_clock senv) ticks = true ->
  clocks_before (session_clock senv + ULong.modulus) ticks = true ->
  let n := Z.of_nat (List.length (snd (run ticks st0))) in
  sampleCount (fst (run ticks st0)) = n /\
  (0 < n ->
   TRANSMISSION_INTERVAL * (n - 1)
   <= last_clock (session_clock senv) ticks - session_clock senv).
Proof.
  intros S M B n. apply setup_returned in S.
  destruct S as (_ & _ & Ss & Sc & _ & Sl).
  assert (I : session_inv (session_clock senv) (session_clock senv) st0).
  { split; auto.
    - change ULong.modulus with 4294967296. lia.
    - lia.
    - lia. }
  destruct (run_inv _ ticks _ _ I M B) as [[_ _ _ Il] N].
  rewrite Sc in N. cbn [Z.add] in N. fold n in N. split; [exact N|].
  intros P. rewrite N in Il. destruct (Il P) as (cl & _ & Hcl & Bd). lia.
Qed.

Lemma at_most_one_line_per_interval_witness :
  sampleCount (fst (run Sample.ticks Sample.session)) = 3 /\
  TRANSMISSION_INTERVAL * (3 - 1) <= last_clock 4000 Sample.ticks - 4000.
Proof.
  destruct (at_most_one_line_per_interval 0 Sample.start (fst (setup 0 Sample.start))
              Sample.session Sample.ticks) as [C T].
  - vm_compute. reflexivity.
  - vm_compute. reflexivity.
  - vm_compute. reflexivity.
  - split; [exact C|]. apply T. reflexivity.
Defined.

(** * Further properties of the arithmetic of [loop] *)

Lemma is_number_valid x : is_number x = true -> F32.valid x = true.
Proof. destruct x; auto. Qed.

Lemma corrected_nonneg raw :
  is_number raw = true ->
  F32.valid (corrected raw) = true /\ nonneg (corrected raw) = true.
Proof.
  intros H. split; [apply corrected_valid, is_number_valid, H|].
  unfold corrected, F32.mul, F32.abs. rewrite CORRECTION_FACTOR_value.
  apply (SFmul_nonneg_finite _ _ F32_prec_pos F32_prec_lt_emax).
  - apply SFabs_valid, is_number_valid, H.
  - reflexivity.
  - destruct raw; try reflexivity. discriminate.
Qed.

(** X8: the printed current is never negative: for every reading that is a
    number, [current] compares at or above zero, whatever the sign of
    the reading. *)
Theorem current_is_never_negative
    (ticks : list TickInput) (st : SessionState) (e : Emission) :
  In e (snd (run ticks st)) ->
  is_number (getCurrent_mA (em_input e)) = true ->
  F32.leb F32.zero (current (em_record e)) = true /\
  F32.valid (current (em_record e)) = true.
Proof.
  intros H N. destruct (run_emission _ _ _ H) as (pre & post & _ & _ & L).
  apply loop_emits in L. destruct L as (_ & _ & _ & ->). cbn [current].
  destruct (corrected_nonneg _ N). auto.
Qed.

Lemma current_is_never_negative_witness :
  let e := Sample.emission 2 Sample.ticks Sample.session in
  F32.ltb (getCurrent_mA (em_input e)) F32.zero = true /\
  F32.leb F32.zero (current (em_record e)) = true.
Proof.
  intros e. split; [vm_compute; reflexivity|].
  apply (current_is_never_negative Sample.ticks Sample.session e).
  - vm_compute. do 2 right. left. reflexivity.
  - vm_compute. reflexivity.
Defined.

Lemma measureBaseline_loop_magnitude start polls polls' :
  Forall2 same_magnitude polls polls' ->
  forall sum k,
    measureBaseline_loop start polls sum k = measureBaseline_loop start polls' sum k.
Proof.
  induction 1 as [|p q polls polls' (C & R & M) _ IH]; intros sum k; [reflexivity|].
  cbn [measureBaseline_loop]. unfold corrected, F32.abs. rewrite C, R, M.
  destruct (_ <? 2000); [|reflexivity].
  destruct (poll_ready q); apply IH.
Qed.

(** X9: the direction of the current is lost: a call whose reading has the
    opposite sign leaves the same globals and prints the same line, and
    [measureBaseline] stores the same baseline for two calibration runs
    whose polls differ only in the signs of the readings. *)
Theorem current_direction_is_dropped (env : TickInput) (st : SessionState) :
  loop (reversed env) st = loop env st /\
  (forall start_clock polls polls',
     Forall2 same_magnitude polls polls' ->
     measureBaseline start_clock polls = measureBaseline start_clock polls') /\
  (forall p, same_magnitude (mkPoll (poll_clock p) (poll_ready p) (SFopp (poll_current p))) p).
Proof.
  split; [|split].
  - assert (A : forall raw, corrected (SFopp raw) = corrected raw).
    { intros raw. unfold corrected, F32.abs. destruct raw; reflexivity. }
    unfold loop, reversed. cbn [clock isConversionReady getBusVoltage getCurrent_mA].
    rewrite A. reflexivity.
  - intros start_clock polls polls' H. unfold measureBaseline.
    rewrite (measureBaseline_loop_magnitude _ _ _ H). reflexivity.
  - intros p. unfold same_magnitude. cbn [poll_clock poll_ready poll_current].
    repeat split. destruct (poll_current p); reflexivity.
Qed.

Lemma current_direction_is_dropped_witness :
  let flip p := mkPoll (poll_clock p) (poll_ready p) (SFopp (poll_current p)) in
  loop (reversed (Sample.tick 0)) Sample.session = loop (Sample.tick 0) Sample.session /\
  measureBaseline 2000 (map flip (baseline_polls Sample.start))
  = measureBaseline 2000 (baseline_polls Sample.start).
Proof.
  intros flip.
  destruct (current_direction_is_dropped (Sample.tick 0) Sample.session) as (L & M & F).
  split; [exact L|]. apply M.
  cbn [Sample.start baseline_polls map].
  repeat (constructor; [apply F|]). constructor.
Defined.

Lemma loop_energy_number env st st' r :
  loop env st = (st', Some r) ->
  tick_wf env = true -> nonneg_power env = true ->
  F32.valid (totalEnergy st) = true -> nonneg (totalEnergy st) = true ->
  F32.valid (totalEnergy st') = true /\ nonneg (totalEnergy st') = true /\
  cumulativeEnergy r = totalEnergy st'.
Proof.
  intros L W P V N. destruct (loop_energy _ _ _ _ L W P V N) as (A & B & _ & C). auto.
Qed.

(** X10: the energy total never turns negative or into a NaN: in a session
    where the sensor returns proper [float]s and no computed power is
    negative, after any calls of [loop] the total is a proper [float] at
    or above zero, and so is the energy shown in every line. *)
Theorem energy_stays_a_number
    (fuel : nat) (senv : SetupInput) (out : list Output) (st0 : SessionState)
    (ticks : list TickInput) :
  setup fuel senv = (out, Returned st0) ->
  forallb tick_wf ticks = true ->
  forallb nonneg_power ticks = true ->
  is_number (totalEnergy (fst (run ticks st0))) = true /\
  F32.leb F32.zero (totalEnergy (fst (run ticks st0))) = true /\
  Forall (fun e => is_number (cumulativeEnergy (em_record e)) = true /\
                   F32.leb F32.zero (cumulativeEnergy (em_record e)) = true)
         (snd (run ticks st0)).
Proof.
  intros S W P. apply setup_returned in S. destruct S as (_ & _ & _ & _ & Se & _).
  assert (Num : forall x, F32.valid x = true -> nonneg x = true -> is_number x = true).
  { intros x V N. destruct x; auto; discriminate. }
  assert (G : forall ticks st,
    forallb tick_wf ticks = true -> forallb nonneg_power ticks = true ->
    F32.valid (totalEnergy st) = true -> nonneg (totalEnergy st) = true ->
    (F32.valid (totalEnergy (fst (run ticks st))) = true /\
     nonneg (totalEnergy (fst (run ticks st))) = true) /\
    Forall (fun e => is_number (cumulativeEnergy (em_record e)) = true /\
                     F32.leb F32.zero (cumulativeEnergy (em_record e)) = true)
           (snd (run ticks st))).
  { clear - Num. induction ticks as [|env rest IH]; intros st W P V N.
    - cbn. auto.
    - cbn [forallb] in W, P. apply andb_true_iff in W, P.
      destruct W as [We W], P as [Pe P]. rewrite run_cons. cbn [fst snd].
      destruct (loop env st) as [st' [r|]] eqn:L; cbn [fst snd].
      + destruct (loop_energy_number _ _ _ _ L We Pe V N) as (V' & N' & C).
        destruct (IH st' W P V' N') as [F A]. split; [exact F|].
        constructor; [|exact A]. cbn [em_record]. rewrite C. auto.
      + apply loop_silent in L. subst st'. apply IH; auto. }
  destruct (G ticks st0 W P) as [[V N] A]; try (rewrite Se; reflexivity).
  auto.
Qed.

Lemma energy_stays_a_number_witness :
  F32.leb F32.zero (totalEnergy (fst (run Sample.ticks Sample.session))) = true.
Proof.
  destruct (energy_stays_a_number 0 Sample.start (fst (setup 0 Sample.start))
              Sample.session Sample.ticks) as (_ & N & _).
  - vm_compute. reflexivity.
  - vm_compute. reflexivity.
  - vm_compute. reflexivity.
  - exact N.
Defined.

(** * Further properties of [measureBaseline] *)

Section Quotients.
Variables prec emax : Z.
Hypothesis prec_pos : 0 < prec.

Lemma shr_fexp_nonneg m e l :
  0 <= m -> 0 <= shr_m (fst (shr_fexp prec emax m e l)).
Proof.
  intros H. unfold shr_fexp, shr.
  destruct (fexp prec emax (Zdigits2 m + e) - e) as [|p|p]; cbn [fst].
  - rewrite shr_record_of_loc_m. exact H.
  - rewrite iter_pos_shr_1_m; rewrite shr_record_of_loc_m; [|exact H].
    apply Z.div_pos; [exact H|]. apply pow2_pos. lia.
  - rewrite shr_record_of_loc_m. exact H.
Qed.

(** Rounding a non-negative mantissa never yields a NaN. *)
Lemma binary_round_aux_number s mx ex lx :
  0 <= mx -> binary_round_aux prec emax s mx ex lx <> S754_nan.
Proof.
  intros H. unfold binary_round_aux.
  pose proof (shr_fexp_nonneg mx ex lx H) as H1.
  destruct (shr_fexp prec emax mx ex lx) as [r1 e1]. cbn [fst] in H1.
  pose proof (round_nearest_even_bounds (shr_m r1) (loc_of_shr_record r1)) as B.
  pose proof (shr_fexp_nonneg (round_nearest_even (shr_m r1) (loc_of_shr_record r1))
                e1 loc_Exact ltac:(lia)) as H2.
  destruct (shr_fexp prec emax _ e1 loc_Exact) as [r2 e2]. cbn [fst] in H2.
  destruct (shr_m r2); try lia; try discriminate.
  destruct (e2 <=? emax - prec); discriminate.
Qed.

Lemma SFdiv_nonneg x my ey :
  nonneg x = true ->
  nonneg (SFdiv prec emax x (S754_finite false my ey)) = true.
Proof.
  intros N. apply nonneg_cases in N.
  destruct N as [[sx ->]|[->|(mx & ex & ->)]]; try reflexivity.
  unfold SFdiv, SFdiv_core_binary.
  set (m' := match _ - _ - _ with Zpos _ => _ | Z0 => _ | Zneg _ => _ end).
  assert (Hm : 0 <= m').
  { unfold m'. destruct (_ - _ - _); try lia. apply Z.shiftl_nonneg. lia. }
  pose proof (Z_div_mod m' (Zpos my) ltac:(lia)) as DM.
  destruct (Z.div_eucl m' (Zpos my)) as [q r]. destruct DM as [DM Hr].
  assert (Hq : 0 <= q) by nia.
  cbn [xorb].
  pose proof (binary_round_aux_sign prec emax false q
                (Z.min (fexp prec emax (Zdigits2 (Zpos mx) + ex - (Zdigits2 (Zpos my) + ey)))
                       (ex - ey))
                (new_location (Zpos my) r)) as Sg.
  pose proof (binary_round_aux_number false q
                (Z.min (fexp prec emax (Zdigits2 (Zpos mx) + ex - (Zdigits2 (Zpos my) + ey)))
                       (ex - ey))
                (new_location (Zpos my) r) Hq) as Nn.
  destruct (binary_round_aux _ _ _ _ _ _); try congruence; subst; reflexivity.
Qed.
End Quotients.

Lemma of_int_positive k :
  0 < k <= Int.max -> exists m e, F32.of_int k = S754_finite false m e.
Proof.
  intros H. unfold F32.of_int. destruct k as [|p|p]; try lia.
  cbn [binary_normalize].
  assert (D : 1 <= mag p 0 <= 31).
  { unfold mag. pose proof (Zdigits2_pos (Zpos p) ltac:(lia)).
    assert (Zdigits2 (Zpos p) <= 31); [|lia].
    apply Zdigits2_le; try lia. unfold Int.max in H. lia. }
  destruct (binary_round_normal 24 128 ltac:(lia) false p 0) as (m & e & E & _).
  { unfold fexp, emin. lia. }
  exists m, e. exact E.
Qed.

Lemma Int_wrap_range z : - 2 ^ 31 <= Int.wrap z <= Int.max.
Proof.
  unfold Int.wrap, Int.max.
  pose proof (Z.mod_pos_bound (z + 2 ^ 31) (2 ^ 32) ltac:(reflexivity)). lia.
Qed.

Lemma measureBaseline_loop_sum start : forall polls sum k s' k',
  measureBaseline_loop start polls sum k = Some (s', k') ->
  forallb (fun p => is_number (poll_current p)) polls = true ->
  F32.valid sum = true -> nonneg sum = true -> k <= Int.max ->
  F32.valid s' = true /\ nonneg s' = true /\ k' <= Int.max.
Proof.
  induction polls as [|p polls IH]; intros sum k s' k' L W V N K; [discriminate|].
  cbn [forallb] in W. apply andb_true_iff in W. destruct W as [Wp W].
  cbn [measureBaseline_loop] in L.
  destruct (_ <? 2000).
  - destruct (poll_ready p).
    + destruct (corrected_nonneg _ Wp) as [Vc Nc].
      destruct (SFadd_nonneg_le _ _ F32_prec_pos _ _ V Vc N Nc) as [_ Ns].
      apply (IH _ _ _ _ L W); auto.
      * apply (SFadd_valid _ _ F32_prec_pos); auto.
      * apply Int_wrap_range.
    + apply (IH _ _ _ _ L W); auto.
  - inversion L; subst. auto.
Qed.

(** X11: the baseline is never negative nor a NaN: when every reading of the
    calibration window is a number and the ready samples are no more than
    [INT_MAX], so that the [int] counter does not overflow,
    [measureBaseline] stores a value that compares at or above zero. *)
Theorem baseline_is_never_negative (start_clock : Z) (polls : list Poll) (b : spec_float) :
  measureBaseline start_clock polls = Some b ->
  forallb (fun p => is_number (poll_current p)) polls = true ->
  Z.of_nat (List.length (filter poll_ready polls)) <= Int.max ->
  F32.leb F32.zero b = true.
Proof.
  unfold measureBaseline. intros M W _.
  destruct (measureBaseline_loop _ _ _ _) as [[s k]|] eqn:L; [|discriminate].
  destruct (measureBaseline_loop_sum _ _ _ _ _ _ L W) as (V & N & K);
    try reflexivity; try discriminate.
  inversion M; subst; clear M.
  destruct (0 <? k) eqn:P; [|reflexivity].
  apply Z.ltb_lt in P.
  destruct (of_int_positive k ltac:(lia)) as (m & e & ->).
  apply (SFdiv_nonneg _ _ s m e N).
Qed.

Lemma baseline_is_never_negative_witness :
  F32.leb F32.zero (baselineCurrent Sample.session) = true.
Proof.
  apply (baseline_is_never_negative 2000 (baseline_polls Sample.start)
           (baselineCurrent Sample.session)).
  - vm_compute. reflexivity.
  - vm_compute. reflexivity.
  - vm_compute. discriminate.
Defined.

Lemma measureBaseline_loop_none start_clock : forall polls sum k,
  measureBaseline_loop (millis start_clock) polls sum k = None
  <-> forallb (in_window start_clock) polls = true.
Proof.
  induction polls as [|p polls IH]; intros sum k; [split; reflexivity|].
  cbn [measureBaseline_loop forallb]. unfold in_window at 1.
  destruct (_ <? 2000); cbn [andb].
  - destruct (poll_ready p); apply IH.
  - split; discriminate.
Qed.

(** X12: calibration ends at the first poll made after the window and not
    before: while every poll falls inside the two seconds counted on the
    32-bit clock, [measureBaseline] has not returned, and [setup] has
    printed neither [# DATA_START] nor a data line. *)
Theorem calibration_needs_a_poll_after_the_window
    (fuel : nat) (senv : SetupInput) (ticks : list TickInput) :
  ina_begin senv = true ->
  (measureBaseline (baseline_clock senv) (baseline_polls senv) = None
   <-> forallb (in_window (baseline_clock senv)) (baseline_polls senv) = true) /\
  (forallb (in_window (baseline_clock senv)) (baseline_polls senv) = true ->
   snd (setup fuel senv) = Calibrating /\
   ~ In (Println data_start) (firmware fuel senv ticks) /\
   (forall r, ~ In (emit r) (firmware fuel senv ticks))).
Proof.
  intros B.
  assert (I : measureBaseline (baseline_clock senv) (baseline_polls senv) = None
              <-> forallb (in_window (baseline_clock senv)) (baseline_polls senv) = true).
  { unfold measureBaseline. rewrite <- (measureBaseline_loop_none _ _ F32.zero 0).
    destruct (measureBaseline_loop _ _ _ _) as [[s k]|]; split; auto; discriminate. }
  split; [exact I|]. intros W. apply I in W.
  unfold firmware, setup. rewrite B, W. cbn [negb snd].
  split; [reflexivity|].
  assert (Q : forall o,
    In o (banner ++
          (if negb (setMaxCurrentShunt senv =? 0)
           then [config_warning (setMaxCurrentShunt senv)] else []) ++
          [Printf "# Current LSB: %.6f mA\n" [ArgFloat (getCurrentLSB_mA senv)];
           Printf "# Power LSB: %.6f mW\n"
             [ArgFloat (F32.mul (getCurrentLSB_mA senv) (F32.of_int 25))];
           Println "# Measuring baseline..."]) ->
    o <> Println data_start /\ forall r, o <> emit r).
  { intros o H. apply in_app_or in H. destruct H as [H|H].
    - cbn in H. repeat (destruct H as [<-|H]; [split; [|intros r]; discriminate|]).
      destruct H.
    - apply in_app_or in H. destruct H as [H|H].
      + destruct (negb _); cbn in H; [|destruct H].
        destruct H as [<-|[]]. split; [|intros r]; discriminate.
      + cbn in H. repeat (destruct H as [<-|H]; [split; [|intros r]; discriminate|]).
        destruct H. }
  split.
  - intros H. apply Q in H. destruct H as [H _]. apply H. reflexivity.
  - intros r H. apply Q in H. destruct H as [_ H]. apply (H r). reflexivity.
Qed.

Lemma calibration_needs_a_poll_after_the_window_witness :
  let stuck :=
    {| ina_begin := true; setMaxCurrentShunt := 0; getCurrentLSB_mA := F32.zero;
       baseline_clock := 2000;
       baseline_polls := [mkPoll 2000 true F32.zero; mkPoll 3999 false F32.zero];
       getManufacturerID := 0; getDieID := 0; getFreeHeap := 0;
       session_clock := 4000 |} in
  snd (setup 0 stuck) = Calibrating.
Proof.
  intros stuck.
  destruct (calibration_needs_a_poll_after_the_window 0 stuck [] eq_refl) as [_ C].
  apply C. vm_compute. reflexivity.
Defined.

(** * Further properties of [setup] and of the output *)

Lemma preamble_quiet (result : Z) (lsb baseline : spec_float) (mid did heap : Z) :
  forall o,
    In o (banner ++
          ((if negb (result =? 0) then [config_warning result] else []) ++
           [Printf "# Current LSB: %.6f mA\n" [ArgFloat lsb];
            Printf "# Power LSB: %.6f mW\n" [ArgFloat (F32.mul lsb (F32.of_int 25))];
            Println "# Measuring baseline..."]) ++
          [Printf "# Baseline current: %.2f mA\n" [ArgFloat baseline];
           Printf "# Manufacturer ID: 0x%04X\n" [ArgInt mid];
           Printf "# Die ID: 0x%04X\n" [ArgInt did];
           Printf "# Free RAM: %d bytes\n" [ArgInt heap];
           Println "# Starting continuous monitoring...";
           Println "# Format: Timestamp(ms),Voltage(V),Current(mA),CurrentNet(mA),Power(mW),Energy(mWh)"]) ->
    o <> Println data_start /\
    (forall r, o <> emit r) /\
    (o = config_warning result -> result <> 0).
Proof.
  intros o H. apply in_app_or in H. destruct H as [H|H].
  - cbn in H.
    repeat (destruct H as [<-|H];
            [split; [|split; [intros r|]]; discriminate|]).
    destruct H.
  - apply in_app_or in H. destruct H as [H|H].
    + apply in_app_or in H. destruct H as [H|H].
      * destruct (result =? 0) eqn:E; cbn in H; [destruct H|].
        destruct H as [<-|[]]. split; [|split; [intros r|]]; try discriminate.
        intros _. apply Z.eqb_neq. exact E.
      * cbn in H.
        repeat (destruct H as [<-|H];
                [split; [|split; [intros r|]]; discriminate|]).
        destruct H.
    + cbn in H.
      repeat (destruct H as [<-|H];
              [split; [|split; [intros r|]]; discriminate|]).
      destruct H.
Qed.

Lemma app_split_last {A} (P C T : list A) (d : A) (M : list A) :
  P ++ C ++ (T ++ [d]) = (P ++ C ++ T) ++ [d] /\
  (P ++ C ++ (T ++ [d])) ++ M = (P ++ C ++ T) ++ d :: M.
Proof. rewrite <- !app_assoc. cbn [app]. split; reflexivity. Qed.

(** X13: the output has two phases: when [setup] returns, what the sketch
    prints is a preamble holding neither [# DATA_START] nor a data line,
    then [# DATA_START] once, then nothing but data lines, one per record
    and in the order of the calls. *)
Theorem data_lines_follow_data_start
    (fuel : nat) (senv : SetupInput) (out : list Output) (st0 : SessionState)
    (ticks : list TickInput) :
  setup fuel senv = (out, Returned st0) ->
  exists preamble,
    out = preamble ++ [Println data_start] /\
    ~ In (Println data_start) preamble /\
    (forall r, ~ In (emit r) preamble) /\
    firmware fuel senv ticks
    = preamble ++ Println data_start :: map emit (records ticks st0).
Proof.
  intros S. unfold firmware. rewrite S. revert S. unfold setup.
  destruct (ina_begin senv); [|discriminate]. cbn [negb].
  destruct (measureBaseline _ _) as [b|]; [|discriminate].
  intros S. injection S as O E. subst out st0.
  pose proof (preamble_quiet (setMaxCurrentShunt senv) (getCurrentLSB_mA senv) b
                (getManufacturerID senv) (getDieID senv) (getFreeHeap senv)) as Q.
  match type of Q with
  | forall o, In o (?P ++ ?C ++ ?T) -> _ =>
      exists (P ++ C ++ T);
      pose proof (app_split_last P C T (Println data_start)
                    (map emit (records ticks
                       {| sessionStartTime := millis (session_clock senv);
                          sampleCount := 0;
                          baselineCurrent := b;
                          totalEnergy := totalEnergy globals0;
                          lastTransmission := lastTransmission globals0 |})))
        as [E1 E2]
  end.
  split; [|split; [|split]].
  - exact E1.
  - intros H. apply Q in H. destruct H as [H _]. apply H. reflexivity.
  - intros r H. apply Q in H. destruct H as (_ & H & _). apply (H r). reflexivity.
  - exact E2.
Qed.

Lemma data_lines_follow_data_start_witness :
  exists preamble,
    firmware 0 Sample.start Sample.ticks
    = preamble ++ Println data_start :: map emit (records Sample.ticks Sample.session).
Proof.
  destruct (data_lines_follow_data_start 0 Sample.start (fst (setup 0 Sample.start))
              Sample.session Sample.ticks) as (pre & _ & _ & _ & F).
  - vm_compute. reflexivity.
  - exists pre. exact F.
Defined.

(** X14: a configuration the sensor does not acknowledge is reported and
    nothing more: with the sensor on the bus, [setup] prints the warning
    line exactly when [setMaxCurrentShunt] returns a non-zero code, and
    goes on to the same calibration, the same globals and the same data
    lines whatever the code. *)
Theorem config_warning_is_not_fatal
    (fuel : nat) (senv : SetupInput) (result : Z) (ticks : list TickInput) :
  ina_begin senv = true ->
  snd (setup fuel (with_config result senv)) = snd (setup fuel senv) /\
  (In (config_warning result) (fst (setup fuel (with_config result senv)))
   <-> result <> 0) /\
  (forall r, In (emit r) (firmware fuel (with_config result senv) ticks)
             <-> In (emit r) (firmware fuel senv ticks)).
Proof.
  intros B.
  assert (W : In (config_warning result) (fst (setup fuel (with_config result senv)))
              <-> result <> 0).
  { unfold setup, with_config.
    cbn [ina_begin setMaxCurrentShunt getCurrentLSB_mA baseline_clock baseline_polls
         getManufacturerID getDieID getFreeHeap session_clock].
    rewrite B. cbn [negb]. unfold config_warning.
    destruct (measureBaseline _ _) as [b|]; cbn [fst]; split.
    - intros H. destruct (result =? 0) eqn:E; [|apply Z.eqb_neq; exact E].
      exfalso. cbn in H.
      repeat (destruct H as [H|H]; [discriminate H|]). destruct H.
    - intros N. apply Z.eqb_neq in N. rewrite N. cbn. do 5 right. left. reflexivity.
    - intros H. destruct (result =? 0) eqn:E; [|apply Z.eqb_neq; exact E].
      exfalso. cbn in H.
      repeat (destruct H as [H|H]; [discriminate H|]). destruct H.
    - intros N. apply Z.eqb_neq in N. rewrite N. cbn. do 5 right. left. reflexivity. }
  assert (S : snd (setup fuel (with_config result senv)) = snd (setup fuel senv)).
  { unfold setup, with_config.
    cbn [ina_begin setMaxCurrentShunt getCurrentLSB_mA baseline_clock baseline_polls
         getManufacturerID getDieID getFreeHeap session_clock].
    rewrite B. cbn [negb]. destruct (measureBaseline _ _); reflexivity. }
  split; [exact S|]. split; [exact W|].
  intros r. unfold firmware.
  destruct (setup fuel (with_config result senv)) as [o1 r1] eqn:E1.
  destruct (setup fuel senv) as [o2 r2] eqn:E2.
  cbn [snd] in S. subst r2.
  assert (Q : forall env o res, setup fuel env = (o, res) -> ina_begin env = true ->
                                ~ In (emit r) o).
  { clear. intros env o res E B H. revert E. unfold setup. rewrite B. cbn [negb].
    destruct (measureBaseline _ _) as [b|]; intros E; injection E as <- _.
    - pose proof (preamble_quiet (setMaxCurrentShunt env) (getCurrentLSB_mA env) b
                    (getManufacturerID env) (getDieID env) (getFreeHeap env)) as P.
      match type of P with
      | forall o, In o (?P ++ ?C ++ ?T) -> _ =>
          destruct (app_split_last P C T (Println data_start) []) as [E1 _];
          assert (H' : In (emit r) ((P ++ C ++ T) ++ [Println data_start]))
            by (rewrite <- E1; exact H)
      end.
      clear H. apply in_app_or in H'.
      destruct H' as [H|[H|[]]]; [|discriminate H].
      apply P in H. destruct H as (_ & H & _). apply (H r). reflexivity.
    - cbn [In] in H. do 5 (destruct H as [H|H]; [discriminate H|]).
      apply in_app_or in H. destruct H as [H|H].
      + destruct (negb _); cbn in H; [|destruct H].
        destruct H as [H|[]]. discriminate H.
      + cbn in H. repeat (destruct H as [H|H]; [discriminate H|]). destruct H. }
  assert (B' : ina_begin (with_config result senv) = true) by exact B.
  pose proof (Q _ _ _ E1 B') as Q1. pose proof (Q _ _ _ E2 B) as Q2.
  destruct r1 as [st| |].
  - rewrite !in_app_iff. tauto.
  - tauto.
  - tauto.
Qed.

Lemma config_warning_is_not_fatal_witness :
  In (config_warning 7) (fst (setup 0 (with_config 7 Sample.start))) /\
  snd (setup 0 (with_config 7 Sample.start)) = Returned Sample.session.
Proof.
  destruct (config_warning_is_not_fatal 0 Sample.start 7 [] eq_refl) as (S & W & _).
  split.
  - apply W. discriminate.
  - rewrite S. vm_compute. reflexivity.
Defined.

Lemma first_emission_from_boot_witness :
  let out := loop (Sample.tick 0) Sample.session in
  clock (Sample.tick 0) = 4050 /\ session_clock Sample.start = 4000 /\
  cumulativeEnergy (Sample.printed out)
  = F32.add F32.zero (F32.mul (power (Sample.printed out)) (deltaTime 4050)).
Proof.
  intros out. split; [reflexivity|]. split; [reflexivity|].
  apply (first_emission_from_boot 0 Sample.start (fst (setup 0 Sample.start))
           Sample.session (Sample.tick 0) (fst out) (Sample.printed out)).
  - vm_compute. reflexivity.
  - vm_compute. reflexivity.
Defined.

(** * The conversion inside [deltaTime] *)

Lemma binary_round_aux_exact prec emax s (m : positive) (e : Z) :
  fexp prec emax (Zdigits2 (Zpos m) + e) = e -> e <= emax - prec ->
  binary_round_aux prec emax s (Zpos m) e loc_Exact = S754_finite s m e.
Proof.
  intros C B. unfold binary_round_aux.
  rewrite shr_fexp_noshift by lia.
  cbn [shr_record_of_loc shr_m loc_of_shr_record round_nearest_even].
  rewrite shr_fexp_noshift by lia.
  cbn [shr_record_of_loc shr_m]. apply Z.leb_le in B. rewrite B. reflexivity.
Qed.

(** X16: the milliseconds between two data lines enter the energy formula
    without rounding: the [unsigned long] difference converts to a
    [double] of exactly its value, whatever it is. *)
Theorem elapsed_converts_exactly (d : Z) :
  0 < d < ULong.modulus ->
  exists m e,
    F64.of_ulong d = S754_finite false m e /\
    bounded F64.prec F64.emax m e = true /\
    e <= 0 /\ Zpos m = d * 2 ^ (- e).
Proof.
  intros H. destruct d as [|p|p]; try lia.
  unfold F64.of_ulong. cbn [binary_normalize]. unfold binary_round.
  change (Zpos (digits2_pos p)) with (Zdigits2 (Zpos p)).
  set (e1 := fexp F64.prec F64.emax (Zdigits2 (Zpos p) + 0)).
  assert (D : 1 <= Zdigits2 (Zpos p) <= 32).
  { pose proof (Zdigits2_pos (Zpos p) ltac:(lia)).
    assert (Zdigits2 (Zpos p) <= 32); [|lia].
    apply Zdigits2_le; try lia. exact (proj2 H). }
  assert (E1 : e1 = Zdigits2 (Zpos p) - 53).
  { unfold e1, fexp, emin, F64.prec, F64.emax. lia. }
  destruct (shl_align_spec p 0 e1) as [Ez Mz].
  destruct (shl_align p 0 e1) as [mz ez]. cbn [fst snd] in Ez, Mz.
  replace (Z.min 0 e1) with e1 in * by lia. subst ez.
  assert (Dz : Zdigits2 (Zpos mz) + e1 = Zdigits2 (Zpos p) + 0).
  { rewrite Mz, Zdigits2_mul_pow2 by lia. lia. }
  assert (C : fexp F64.prec F64.emax (Zdigits2 (Zpos mz) + e1) = e1).
  { rewrite Dz. reflexivity. }
  exists mz, e1. split; [|split; [|split]].
  - apply binary_round_aux_exact; [exact C|]. unfold F64.prec, F64.emax. lia.
  - unfold bounded, canonical_mantissa.
    change (Zpos (digits2_pos mz)) with (Zdigits2 (Zpos mz)).
    rewrite C, Z.eqb_refl. apply Z.leb_le. unfold F64.prec, F64.emax. lia.
  - lia.
  - rewrite Mz. do 2 f_equal.
Qed.

Lemma elapsed_converts_exactly_witness :
  exists m e, F64.of_ulong 50 = S754_finite false m e /\ Zpos m = 50 * 2 ^ (- e).
Proof.
  destruct (elapsed_converts_exactly 50) as (m & e & E & _ & _ & V).
  - split; reflexivity.
  - exists m, e. split; [exact E | exact V].
Defined.

(** * The energy total as a running sum *)

Lemma loop_energy_step env st st' r :
  loop env st = (st', Some r) ->
  totalEnergy st' = F32.add (totalEnergy st) (energy_step (mkEmission env st r st')) /\
  cumulativeEnergy r = totalEnergy st'.
Proof.
  intros L. apply loop_emits in L. destruct L as (_ & _ & -> & ->).
  unfold energy_step. cbn. auto.
Qed.

(** X17: the energy total is the left-to-right [float] sum of one step
    per data line, each step being the power of that line times the time
    since the line before it; calls that print nothing add nothing, and
    the energy a line shows is the sum up to and including its own step. *)
Theorem energy_is_running_sum (ticks : list TickInput) (st : SessionState) :
  totalEnergy (fst (run ticks st)) = energy_sum (totalEnergy st) (snd (run ticks st)) /\
  (forall pre e post,
     snd (run ticks st) = pre ++ e :: post ->
     cumulativeEnergy (em_record e) = energy_sum (totalEnergy st) (pre ++ [e])).
Proof.
  unfold energy_sum. revert st. induction ticks as [|env rest IH]; intros st.
  - split; [reflexivity|]. intros pre e post H. destruct pre; discriminate H.
  - rewrite run_cons. cbn [fst snd].
    destruct (loop env st) as [st' [r|]] eqn:L; cbn [fst snd].
    + destruct (loop_energy_step _ _ _ _ L) as [T C].
      destruct (IH st') as [F P]. split.
      * cbn [fold_left]. rewrite <- T. exact F.
      * intros pre e post H. destruct pre as [|e0 pre].
        -- cbn [app] in H. injection H as <- _.
           cbn [app fold_left em_record]. rewrite C. exact T.
        -- rewrite <- app_comm_cons in H. injection H as <- H.
           rewrite <- app_comm_cons. cbn [fold_left]. rewrite <- T.
           apply (P pre e post H).
    + apply loop_silent in L. subst st'. apply IH.
Qed.

Lemma energy_is_running_sum_witness :
  let ems := snd (run Sample.ticks Sample.session) in
  let e := Sample.emission 1 Sample.ticks Sample.session in
  cumulativeEnergy (em_record e) = energy_sum F32.zero (firstn 2 ems).
Proof.
  intros ems e.
  destruct (energy_is_running_sum Sample.ticks Sample.session) as [_ P].
  apply (P (firstn 1 ems) e (skipn 2 ems)). vm_compute. reflexivity.
Defined.

Lemma rate_limit_survives_rollover_witness :
  let late := [mkTick 4050 true (Sample.f 5 1) (Sample.f 100 1);
               mkTick (4050 + 2 ^ 32 + 10) true (Sample.f 5 1) (Sample.f 100 1);
               mkTick (4050 + 2 ^ 32 + 60) true (Sample.f 5 1) (Sample.f 100 1)] in
  map (fun e => clock (em_input e)) (snd (run late Sample.session))
  = [4050; 4050 + 2 ^ 32 + 60] /\
  Sorted spaced (snd (run late Sample.session)).
Proof.
  intros late. split; [vm_compute; reflexivity|].
  exact (proj1 (rate_limit_survives_rollover late Sample.session)).
Defined.
